(** * rmcloud2pdf: a shallow embedding of [src/rmcloud2pdf/main.py]

    The listing parser, the output-path derivation, the directory mirror
    and the per-archive conversion [process_rmdoc_file] are translated
    function by function.  External processes ([rmapi], [rmc]) are
    parameters; the file system is explicit state. *)

From stdpp Require Import base gmap strings list.
From Stdlib Require Import Ascii String.

Local Open Scope string_scope.

(* ------------------------------------------------------------------ *)
(** ** Python string helpers *)

Module Py.

(** Characters for which [str.isspace()] holds (ASCII range). *)
Definition is_space (c : ascii) : bool :=
  match nat_of_ascii c with
  | 9 | 10 | 11 | 12 | 13 | 28 | 29 | 30 | 31 | 32 => true
  | _ => false
  end.

Fixpoint lstrip (s : string) : string :=
  match s with
  | EmptyString => EmptyString
  | String c r => if is_space c then lstrip r else s
  end.

Fixpoint rstrip (s : string) : string :=
  match s with
  | EmptyString => EmptyString
  | String c r =>
      let r' := rstrip r in
      if is_space c && String.eqb r' "" then "" else String c r'
  end.

(** [s.strip()] *)
Definition strip (s : string) : string := rstrip (lstrip s).

(** [s.split('\n')]: never empty, [""] for the empty string. *)
Fixpoint split_nl (s : string) : list string :=
  match s with
  | EmptyString => [""]
  | String c r =>
      if Ascii.eqb c "010"%char then "" :: split_nl r
      else match split_nl r with
           | h :: t => String c h :: t
           | [] => [String c ""]
           end
  end.

(** [s.startswith(p)] and [s.endswith(p)] *)
Definition startswith (s p : string) : bool := String.prefix p s.

Fixpoint rev_str (s : string) : string :=
  match s with
  | EmptyString => EmptyString
  | String c r => rev_str r +:+ String c EmptyString
  end.

Definition endswith (s p : string) : bool :=
  String.prefix (rev_str p) (rev_str s).

(** [s[n:]] *)
Fixpoint drop_chars (n : nat) (s : string) : string :=
  match n, s with
  | 0, _ => s
  | S n', String _ r => drop_chars n' r
  | S _, EmptyString => EmptyString
  end.

(** [s.replace(old, new)] for a non-empty [old]: left to right,
    non-overlapping, every occurrence. *)
Fixpoint replace_go (fuel : nat) (old new s : string) : string :=
  match fuel with
  | 0 => s
  | S f =>
      if String.prefix old s then new +:+ replace_go f old new (drop_chars (String.length old) s)
      else match s with
           | EmptyString => EmptyString
           | String c r => String c (replace_go f old new r)
           end
  end.

Definition replace (s old new : string) : string :=
  replace_go (S (String.length s)) old new s.

Fixpoint has_slash (s : string) : bool :=
  match s with
  | EmptyString => false
  | String c r => Ascii.eqb c "/"%char || has_slash r
  end.

(** [os.path.basename]: the part after the last ['/']. *)
Fixpoint basename (s : string) : string :=
  match s with
  | EmptyString => EmptyString
  | String c r =>
      if has_slash r then basename r
      else if Ascii.eqb c "/"%char then r else s
  end.

(** The head of [os.path.split]: everything up to and including the last ['/']. *)
Fixpoint head_part (s : string) : string :=
  match s with
  | EmptyString => EmptyString
  | String c r =>
      if has_slash r then String c (head_part r)
      else if Ascii.eqb c "/"%char then "/" else ""
  end.

Fixpoint all_slashes (s : string) : bool :=
  match s with
  | EmptyString => true
  | String c r => Ascii.eqb c "/"%char && all_slashes r
  end.

Definition rstrip_slash (s : string) : string :=
  rev_str (let fix go (t : string) :=
             match t with
             | String c r => if Ascii.eqb c "/"%char then go r else t
             | EmptyString => EmptyString
             end in go (rev_str s)).

(** [os.path.dirname] *)
Definition dirname (s : string) : string :=
  let h := head_part s in
  if negb (String.eqb h "") && negb (all_slashes h) then rstrip_slash h else h.

(** [os.path.join(a, b)] for two components. *)
Definition join (a b : string) : string :=
  if startswith b "/" then b
  else if String.eqb a "" || endswith a "/" then a +:+ b
  else a +:+ "/" +:+ b.

End Py.

(* ------------------------------------------------------------------ *)
(** ** Listing Parser: [parse_rmapi_find] (main.py 82-120) *)

Module Listing.
Import Py.

Fixpoint parse_loop (lines : list string) (directories files : list string)
  : list string * list string :=
  match lines with
  | [] => (directories, files)
  | line :: rest =>
      if String.eqb line "" then parse_loop rest directories files
      else if startswith line "[d] " then
        parse_loop rest (directories ++ [drop_chars 4 line]) files
      else if startswith line "[f] " then
        parse_loop rest directories (files ++ [drop_chars 4 line])
      else parse_loop rest directories files
  end.

Definition parse_rmapi_find (rmapi_find_output : string) : list string * list string :=
  parse_loop (split_nl (strip rmapi_find_output)) [] [].

(** The spec's reading: classify the raw lines of the text, each
    directory line and each file line contributing its remainder. *)
Definition is_dir_line (l : string) : bool := startswith l "[d] ".
Definition is_file_line (l : string) : bool := startswith l "[f] ".

Definition listing_by_lines (text : string) : list string * list string :=
  let ls := split_nl text in
  (map (drop_chars 4) (List.filter is_dir_line ls),
   map (drop_chars 4) (List.filter is_file_line ls)).

End Listing.

(* ------------------------------------------------------------------ *)
(** ** Output path: [final_pdf_path] (main.py 258-261) *)

Module OutPath.
Import Py.

Definition final_pdf_path (rmdoc_file_path : string) : string :=
  let base_name := replace (basename rmdoc_file_path) ".rmdoc" "" in
  join (dirname rmdoc_file_path) (base_name +:+ ".pdf").

Definition temp_extract_dir (rmdoc_file_path uuid : string) : string :=
  join (dirname rmdoc_file_path) ("temp_extract_" +:+ uuid).

End OutPath.

(* ------------------------------------------------------------------ *)
(** ** Tree Mirror: [os.makedirs] and [ensure_directories_exist]
    (main.py 122-150)

    A path is its list of components; an absolute path starts with the
    component ["/"].  The file system maps paths to nodes.  [denied]
    says which [mkdir] calls the OS refuses (permissions, read-only
    mounts). *)

Module Mirror.
Import Py.

Inductive node := NDir | NFile.

#[global] Instance node_eq_dec : EqDecision node.
Proof. solve_decision. Defined.

Abbreviation fsys := (gmap (list string) node).

(** [FileExistsError] and every other [OSError]. *)
Inductive oserror := EExist | EOther.

Fixpoint split_slash (s : string) : list string :=
  match s with
  | EmptyString => [""]
  | String c r =>
      if Ascii.eqb c "/"%char then "" :: split_slash r
      else match split_slash r with
           | h :: t => String c h :: t
           | [] => [String c ""]
           end
  end.

(** The components the OS resolves a path string to. *)
Definition norm (s : string) : list string :=
  ((if startswith s "/" then ["/"] else [])
    ++ List.filter (fun x => negb (String.eqb x "")) (split_slash s))%list.

Definition is_dir (fs : fsys) (p : list string) : bool :=
  bool_decide (fs !! p = Some NDir).

Section Mkdir.
Variable denied : list string -> bool.

(** [os.mkdir(p)] *)
Definition mkdir (p : list string) (fs : fsys) : fsys * option oserror :=
  match p with
  | [] => (fs, Some EOther)
  | _ =>
      match fs !! p with
      | Some _ => (fs, Some EExist)
      | None =>
          let parent := removelast p in
          if negb (bool_decide (parent = [])) && negb (is_dir fs parent)
          then (fs, Some EOther)
          else if denied p then (fs, Some EOther)
          else (<[p := NDir]> fs, None)
      end
  end.

(** [os.makedirs(name, exist_ok=True)] on the reversed components:
    create the head if it does not exist (a [FileExistsError] there is
    ignored), then [mkdir] the name, tolerating an existing directory. *)
Fixpoint makedirs_rev (rp : list string) (fs : fsys) : fsys * option oserror :=
  match rp with
  | [] => (fs, Some EOther)
  | _ :: rhead =>
      let name := rev rp in
      let head := rev rhead in
      let '(fs1, r1) :=
        if negb (bool_decide (rhead = [])) && bool_decide (fs !! head = None) then
          match makedirs_rev rhead fs with
          | (fs', Some EExist) => (fs', None)
          | res => res
          end
        else (fs, None) in
      match r1 with
      | Some e => (fs1, Some e)
      | None =>
          match mkdir name fs1 with
          | (fs2, None) => (fs2, None)
          | (fs2, Some e) => if is_dir fs2 name then (fs2, None) else (fs2, Some e)
          end
      end
  end.

Definition makedirs (path : string) (fs : fsys) : fsys * option oserror :=
  makedirs_rev (rev (norm path)) fs.

(** What [ensure_directories_exist] prints about each outcome. *)
Inductive event :=
  | BaseError (path : string)
  | DirOk (path : string)
  | DirError (path : string).

Definition event_path (e : event) : string :=
  match e with BaseError p | DirOk p | DirError p => p end.

Fixpoint lstrip_slash (s : string) : string :=
  match s with
  | String c r => if Ascii.eqb c "/"%char then lstrip_slash r else s
  | EmptyString => EmptyString
  end.

Definition full_path (output_path directory : string) : string :=
  join output_path (lstrip_slash directory).

Fixpoint mirror_loop (output_path : string) (dir_list : list string) (fs : fsys)
  : fsys * list event :=
  match dir_list with
  | [] => (fs, [])
  | directory :: rest =>
      let full := full_path output_path directory in
      let '(fs1, r) := makedirs full fs in
      let ev := match r with None => DirOk full | Some _ => DirError full end in
      let '(fs2, evs) := mirror_loop output_path rest fs1 in
      (fs2, ev :: evs)
  end.

Definition ensure_directories_exist (output_path : string) (dir_list : list string)
    (fs : fsys) : fsys * list event :=
  match makedirs output_path fs with
  | (fs1, Some _) => (fs1, [BaseError output_path])
  | (fs1, None) => mirror_loop output_path dir_list fs1
  end.

End Mkdir.

(** A file system as the OS keeps it: no node has the empty path, and
    the parent of a directory is a directory. *)
Definition wf (fs : fsys) : Prop :=
  fs !! [] = None /\
  forall (p : list string) (c : string),
    p <> [] -> fs !! (p ++ [c])%list = Some NDir -> fs !! p = Some NDir.

(** A decision procedure for [wf] on a concrete file system. *)
Definition wf_check (fs : fsys) : bool :=
  bool_decide (fs !! [] = None)
  && forallb (fun '(k, v) =>
                match v with
                | NDir => bool_decide (removelast k = []) || is_dir fs (removelast k)
                | NFile => true
                end) (map_to_list fs).

(** [fs'] keeps every node of [fs], stays well formed if [fs] was, and
    differs from [fs] only at paths satisfying [P]. *)
Definition grows (fs fs' : fsys) (P : list string -> Prop) : Prop :=
  (forall q x, fs !! q = Some x -> fs' !! q = Some x)
  /\ (wf fs -> wf fs')
  /\ (forall q, fs' !! q = fs !! q \/ P q).

End Mirror.

(* ------------------------------------------------------------------ *)
(** ** Archive processing: [merge_pdfs] and [process_rmdoc_file]
    (main.py 222-371) *)

Module Pipeline.
Import Py.

(** Values [json.load] returns. *)
#[warnings="-register-all"]
Inductive json :=
  | JNull
  | JBool (b : bool)
  | JNum (n : nat)
  | JStr (s : string)
  | JArr (l : list json)
  | JObj (kv : list (string * json)).

(** What the program can observe of a file's bytes: a JSON document,
    a PDF with its pages, a reMarkable page, or anything else (bytes
    that do not parse as JSON). *)
Inductive data :=
  | DJson (j : json)
  | DPdf (pages : list string)
  | DRm (label : string)
  | DBlob (label : string).

(** One extracted file: its directory below the extraction root, its
    name and its contents.  A tree is the list of its files in the order
    [os.walk] enumerates them. *)
Record entry := mk_entry { e_dir : list string; e_name : string; e_data : data }.

Definition relpath (e : entry) : string := String.concat "/" (e_dir e ++ [e_name e])%list.

Inductive exn :=
  | KeyError | TypeError | JSONDecodeError | BadZipFile
  | FileNotFoundError | IsADirectoryError.

Inductive event :=
  | EStart (path : string)
  | ENoContent
  | EEmbedded (src : string)
  | EMissing (page_id : json)
  | EConverted (page_id : string)
  | EConvertError (page_id : string)
  | ENoPages
  | EMerge (pdf_list : list string)
  | EMergeOk
  | EMergeError
  | ENoCPages
  | EFallbackCopy (src : string)
  | ENoOriginal
  | ECleanup (dir : string)
  | EFinal (path : string).

(** [w_trees]: extraction directories by path; [w_files]: other files
    by path; [w_log]: what has been printed. *)
Record world := mk_world {
  w_trees : gmap string (list entry);
  w_files : gmap string data;
  w_log : list event }.

(** Outcome of a Python statement sequence: normal completion with a
    value, a [return] from the enclosing function, or an exception. *)
Inductive res (A : Type) := Val (a : A) | Ret | Raise (e : exn).
Arguments Val {A} a.
Arguments Ret {A}.
Arguments Raise {A} e.

Definition M (A : Type) : Type := world -> res A * world.

Definition mret {A} (a : A) : M A := fun w => (Val a, w).

Definition mbind {A B} (m : M A) (k : A -> M B) : M B := fun w =>
  match m w with
  | (Val a, w') => k a w'
  | (Ret, w') => (Ret, w')
  | (Raise e, w') => (Raise e, w')
  end.

Notation "x <- m ;; k" := (mbind m (fun x => k))
  (at level 95, m at next level, right associativity).
Notation "m ;;; k" := (mbind m (fun _ => k))
  (at level 95, right associativity).

Definition raise {A} (e : exn) : M A := fun w => (Raise e, w).
Definition return_ {A} : M A := fun w => (Ret, w).
Definition lift {A} (r : res A) : M A := fun w => (r, w).

Definition log (ev : event) : M unit := fun w =>
  (Val tt, mk_world (w_trees w) (w_files w) (w_log w ++ [ev])%list).

Definition get_tree (d : string) : M (list entry) := fun w =>
  (Val (match w_trees w !! d with Some es => es | None => [] end), w).

Definition set_tree (d : string) (es : list entry) : M unit := fun w =>
  (Val tt, mk_world (<[d := es]> (w_trees w)) (w_files w) (w_log w)).

Definition write_file (p : string) (x : data) : M unit := fun w =>
  (Val tt, mk_world (w_trees w) (<[p := x]> (w_files w)) (w_log w)).

(** [shutil.rmtree(d, ignore_errors=True)]: the directory and every
    file below it. *)
Definition rmtree (d : string) : M unit := fun w =>
  (Val tt, mk_world (delete d (w_trees w))
                    (filter (fun kv : string * data => startswith kv.1 (d +:+ "/") = false) (w_files w))
                    (w_log w)).

(** [try: body finally: cleanup] *)
Definition try_finally {A} (body : M A) (cleanup : M unit) : M A := fun w =>
  let '(r, w1) := body w in
  match cleanup w1 with
  | (Val _, w2) => (r, w2)
  | (Ret, w2) => (Ret, w2)
  | (Raise e, w2) => (Raise e, w2)
  end.

(** [try: body except KeyError: handler] *)
Definition try_except_key {A} (body : M A) (handler : M A) : M A := fun w =>
  match body w with
  | (Raise KeyError, w1) => handler w1
  | r => r
  end.

(** The body of a function: a [return] ends it normally. *)
Definition func (body : M unit) : M unit := fun w =>
  match body w with
  | (Ret, w1) => (Val tt, w1)
  | r => r
  end.

Fixpoint mapM {A B} (f : A -> res B) (l : list A) : res (list B) :=
  match l with
  | [] => Val []
  | x :: t =>
      match f x with
      | Val y => match mapM f t with Val ys => Val (y :: ys) | Ret => Ret | Raise e => Raise e end
      | Ret => Ret
      | Raise e => Raise e
      end
  end.

(** [v[k]] on a value [json.load] returned; a repeated key keeps its
    last value, as a Python dict built by [json.load] does. *)
Definition getitem (v : json) (k : string) : res json :=
  match v with
  | JObj kv =>
      match List.find (fun '(k', _) => String.eqb k k') (rev kv) with
      | Some (_, x) => Val x
      | None => Raise KeyError
      end
  | _ => Raise TypeError
  end.

(** [for x in v]: a list yields its items, a dict its keys, a string its
    characters. *)
Definition py_iter (v : json) : res (list json) :=
  match v with
  | JArr l => Val l
  | JObj kv => Val (map (fun '(k, _) => JStr k) kv)
  | JStr s => Val (map (fun c => JStr (String c EmptyString)) (list_ascii_of_string s))
  | _ => Raise TypeError
  end.

(** [json.load(f)] *)
Definition json_load (x : data) : res json :=
  match x with DJson j => Val j | _ => Raise JSONDecodeError end.

(** [Path(name).stem] *)
Fixpoint dot_index (s : string) : option nat :=
  match s with
  | EmptyString => None
  | String c r => if Ascii.eqb c "."%char then Some 0 else option_map S (dot_index r)
  end.

Definition stem (name : string) : string :=
  let r := rev_str name in
  match dot_index r with
  | Some j => if (Nat.ltb 0 j) && (Nat.ltb (S j) (String.length name)) then rev_str (drop_chars (S j) r) else name
  | None => name
  end.

Fixpoint is_prefixb (p l : list string) : bool :=
  match p, l with
  | [], _ => true
  | x :: p', y :: l' => String.eqb x y && is_prefixb p' l'
  | _ :: _, [] => false
  end.

(** [os.path.exists] below the extraction root: a file or a directory. *)
Definition path_exists (es : list entry) (comps : list string) : bool :=
  existsb (fun e => is_prefixb comps (e_dir e ++ [e_name e])%list) es.

Definition find_content (es : list entry) : option entry :=
  List.find (fun e => endswith (e_name e) ".content") es.

(** The search for a page's source: [file.startswith(page_id) and
    file.endswith('.rm')]; a [page_id] that is not a string makes
    [startswith] raise. *)
Fixpoint find_rm (page_id : json) (es : list entry) : res (option (string * entry)) :=
  match es with
  | [] => Val None
  | e :: rest =>
      match page_id with
      | JStr s =>
          if startswith (e_name e) s && endswith (e_name e) ".rm" then Val (Some (s, e))
          else find_rm page_id rest
      | _ => Raise TypeError
      end
  end.

Definition is_passthrough (e : entry) : bool :=
  negb (endswith (e_name e) ".content") && negb (endswith (e_name e) ".metadata")
  && negb (endswith (e_name e) ".pagedata") && negb (endswith (e_name e) ".pdf").

(** Reading a file by its path: files written by the program first,
    then the extracted trees. *)
Fixpoint find_in_trees (ts : list (string * list entry)) (p : string) : option data :=
  match ts with
  | [] => None
  | (d, es) :: rest =>
      match List.find (fun e => String.eqb (join d (relpath e)) p) es with
      | Some e => Some (e_data e)
      | None => find_in_trees rest p
      end
  end.

Definition read_path (w : world) (p : string) : option data :=
  match w_files w !! p with
  | Some x => Some x
  | None => find_in_trees (map_to_list (w_trees w)) p
  end.

Fixpoint read_pdfs (w : world) (ps : list string) : option (list string) :=
  match ps with
  | [] => Some []
  | p :: rest =>
      match read_path w p, read_pdfs w rest with
      | Some (DPdf pages), Some more => Some (pages ++ more)%list
      | _, _ => None
      end
  end.

(** [merge_pdfs(pdf_list, output_path)]: every failure is caught and
    reported as [False]. *)
Definition merge_pdfs (pdf_list : list string) (output_path : string) : M bool :=
  log (EMerge pdf_list) ;;;
  (fun w =>
     match read_pdfs w pdf_list with
     | Some pages =>
         (log EMergeOk ;;; write_file output_path (DPdf pages) ;;; mret true) w
     | None => (log EMergeError ;;; mret false) w
     end).

(** How an external command ended: with an exit status, or not at all
    because the executable is missing ([FileNotFoundError]). *)
Inductive proc_result := Exited (code : nat) | NotFound.

Section Process.

(** [rmc -f rm -t pdf -o <out> <src>]: its outcome for each source page.
    On success it writes a one-page PDF rendering that source. *)
Variable rmc : entry -> proc_result.

(** The loop over [page_ids] (main.py 306-336), [pdf_pages] threaded
    through. *)
Fixpoint convert_pages (temp_extract_dir : string) (page_ids : list json)
    (pdf_pages : list string) : M (list string) :=
  match page_ids with
  | [] => mret pdf_pages
  | page_id :: rest =>
      es <- get_tree temp_extract_dir ;;
      found <- lift (find_rm page_id es) ;;
      match found with
      | Some (s, rm_file) =>
          let pdf_page_path := join temp_extract_dir (s +:+ ".pdf") in
          let pdf_pages' := (pdf_pages ++ [pdf_page_path])%list in
          (match rmc rm_file with
           | Exited 0 =>
               write_file pdf_page_path (DPdf [relpath rm_file]) ;;;
               log (EConverted s)
           | Exited _ => log (EConvertError s)
           | NotFound => raise FileNotFoundError
           end) ;;;
          convert_pages temp_extract_dir rest pdf_pages'
      | None => log (EMissing page_id) ;;; convert_pages temp_extract_dir rest pdf_pages
      end
  end.

(** [[page['id'] for page in content_data['cPages']['pages']]] *)
Definition page_ids_of (content_data : json) : res (list json) :=
  match getitem content_data "cPages" with
  | Val c =>
      match getitem c "pages" with
      | Val pg =>
          match py_iter pg with
          | Val pages => mapM (fun page => getitem page "id") pages
          | Ret => Ret
          | Raise e => Raise e
          end
      | Ret => Ret
      | Raise e => Raise e
      end
  | Ret => Ret
  | Raise e => Raise e
  end.

(** Step 4 (main.py 338-344). *)
Definition join_pages (final_pdf_path : string) (pdf_pages : list string) : M unit :=
  match pdf_pages with
  | [] => log ENoPages ;;; return_
  | _ :: _ => _ <- merge_pdfs pdf_pages final_pdf_path ;; mret tt
  end.

(** The native-notebook branch (main.py 302-344). *)
Definition native (temp_extract_dir final_pdf_path : string) (content_data : json) : M unit :=
  page_ids <- lift (page_ids_of content_data) ;;
  pdf_pages <- convert_pages temp_extract_dir page_ids [] ;;
  join_pages final_pdf_path pdf_pages.

(** The [except KeyError] branch (main.py 346-363). *)
Definition fallback (temp_extract_dir final_pdf_path : string) : M unit :=
  log ENoCPages ;;;
  es <- get_tree temp_extract_dir ;;
  match List.find is_passthrough es with
  | Some original_file =>
      write_file final_pdf_path (e_data original_file) ;;;
      log (EFallbackCopy (join temp_extract_dir (relpath original_file)))
  | None => log ENoOriginal
  end.

(** The body of the outer [try] (main.py 266-363). *)
Definition process_body (temp_extract_dir final_pdf_path : string)
    (archive : option (list entry)) : M unit :=
  (match archive with
   | None => raise BadZipFile
   | Some zip => set_tree temp_extract_dir zip
   end) ;;;
  es <- get_tree temp_extract_dir ;;
  match find_content es with
  | None => log ENoContent ;;; return_
  | Some content_file =>
      content_data <- lift (json_load (e_data content_file)) ;;
      let content_uuid := stem (e_name content_file) in
      let pdf_name := content_uuid +:+ ".pdf" in
      if path_exists es [pdf_name] then
        log (EEmbedded (join temp_extract_dir pdf_name)) ;;;
        match List.find (fun e => bool_decide (e_dir e = []) && String.eqb (e_name e) pdf_name) es with
        | Some e => write_file final_pdf_path (e_data e)
        | None => raise IsADirectoryError
        end
      else try_except_key (native temp_extract_dir final_pdf_path content_data)
                          (fallback temp_extract_dir final_pdf_path)
  end.

(** [process_rmdoc_file(rmdoc_file_path)]: [uuid] is what [uuid.uuid4()]
    returned, [archive] the entries [zipfile] reads from the file
    ([None]: not a readable zip). *)
Definition process_rmdoc_file (rmdoc_file_path uuid : string)
    (archive : option (list entry)) : M unit :=
  let temp_extract_dir := OutPath.temp_extract_dir rmdoc_file_path uuid in
  let final_pdf_path := OutPath.final_pdf_path rmdoc_file_path in
  func (log (EStart rmdoc_file_path) ;;;
        try_finally (process_body temp_extract_dir final_pdf_path archive)
                    (rmtree temp_extract_dir ;;; log (ECleanup temp_extract_dir)) ;;;
        log (EFinal final_pdf_path)).

(** The loop of the main block (main.py 419-427) over the listed files;
    [archive_of f] is the archive the download of [f] left behind and
    [uuid_of f] the uuid drawn for it.  [output] is the absolute output
    root. *)
Variable archive_of : string -> option (list entry).
Variable uuid_of : string -> string.

Definition rmdoc_path (output file : string) : string :=
  join output (Mirror.lstrip_slash file) +:+ ".rmdoc".

Fixpoint main_loop (output : string) (files : list string) : M unit :=
  match files with
  | [] => mret tt
  | file :: rest =>
      process_rmdoc_file (rmdoc_path output file) (uuid_of file) (archive_of file) ;;;
      main_loop output rest
  end.

End Process.

(** Observations used to state properties. *)

(** The page lists [merge_pdfs] was called with, in call order. *)
Fixpoint merge_calls (l : list event) : list (list string) :=
  match l with
  | [] => []
  | EMerge ps :: rest => ps :: merge_calls rest
  | _ :: rest => merge_calls rest
  end.

(** The source entry the page search finds for [page_id] in a tree. *)
Definition page_src (es : list entry) (page_id : string) : option entry :=
  match find_rm (JStr page_id) es with
  | Val (Some (_, e)) => Some e
  | _ => None
  end.

(** The manifest ids the page search finds a source for, in order. *)
Definition found_ids (es : list entry) (ids : list string) : list string :=
  List.filter (fun i => match page_src es i with Some _ => true | None => false end) ids.



(** The JSON of a manifest listing [ids] as its pages. *)
Definition manifest_json (ids : list string) : json :=
  JObj [("cPages", JObj [("pages", JArr (map (fun i => JObj [("id", JStr i)]) ids))])].

End Pipeline.

(* ------------------------------------------------------------------ *)
(** ** Sample inputs *)

Module Samples.
Import Pipeline.

Definition fs0 : Mirror.fsys :=
  {[ ["/"] := Mirror.NDir; ["/"; "out"] := Mirror.NDir; ["/"; "out"; "a"] := Mirror.NDir ]}.

(** A manifest listing [ids] as its pages. *)
Definition manifest (ids : list string) : entry :=
  mk_entry [] "doc.content" (DJson (manifest_json ids)).

(** The source page of [i], in the archive's per-document directory. *)
Definition rm (i : string) : entry := mk_entry ["doc"] (i +:+ ".rm") (DRm i).

Definition w0 : world := mk_world ∅ ∅ [].

Definition all_ok : entry -> proc_result := fun _ => Exited 0.

(** [rmc] exits with status 1 on the source page of [i] only. *)
Definition fails_on (i : string) : entry -> proc_result :=
  fun e => if String.eqb (e_name e) (i +:+ ".rm") then Exited 1 else Exited 0.

End Samples.

(* ------------------------------------------------------------------ *)
(** ** The listing text [rmapi find .] prints *)

Module ListingText.
Import Py.

Inductive item := IDir (path : string) | IFile (path : string).

Definition item_path (i : item) : string := match i with IDir p | IFile p => p end.

(** One line per item: its tag, then its path. *)
Definition item_line (i : item) : string :=
  match i with IDir p => "[d] " +:+ p | IFile p => "[f] " +:+ p end.

Definition listing_text (items : list item) : string :=
  String.concat (String "010" EmptyString) (map item_line items).

Definition dirs_of (items : list item) : list string :=
  flat_map (fun i => match i with IDir p => [p] | IFile _ => [] end) items.

Definition files_of (items : list item) : list string :=
  flat_map (fun i => match i with IFile p => [p] | IDir _ => [] end) items.

Definition no_nl (s : string) : Prop := ~ In "010"%char (list_ascii_of_string s).

End ListingText.

(* ================================================================== *)
(** * Properties *)

Module Examples.
Import Pipeline Samples.

Example ex_parse :
  Listing.parse_rmapi_find "[d] /Notes
[f] /Notes/Quarterly" = (["/Notes"], ["/Notes/Quarterly"]).
Proof. reflexivity. Qed.

Example ex_path : OutPath.final_pdf_path "/out/Notes/Quarterly.rmdoc" = "/out/Notes/Quarterly.pdf".
Proof. reflexivity. Qed.

Example ex_mk :
  fst (Mirror.makedirs (fun _ => false) "/out/a/b" {[ ["/"] := Mirror.NDir ]})
  !! ["/"; "out"; "a"] = Some Mirror.NDir.
Proof. vm_compute. reflexivity. Qed.

Example ex_dirname : Py.dirname "a.rmdoc" = "" /\ Py.dirname "/x.rmdoc" = "/" /\ Py.dirname "a//b" = "a".
Proof. vm_compute. auto. Qed.

Example ex_run1 :
  let r := process_rmdoc_file all_ok "/o/n.rmdoc" "u"
             (Some [rm "b"; manifest ["c"; "a"; "b"]; rm "a"; rm "c"]) w0 in
  w_files (snd r) !! "/o/n.pdf" = Some (DPdf ["doc/c.rm"; "doc/a.rm"; "doc/b.rm"])
  /\ w_trees (snd r) = ∅ /\ fst r = Val tt.
Proof. vm_compute. auto. Qed.

End Examples.


Module ListingFacts.
Import Py Listing.

Lemma dir_tag_not_file_tag (l : string) :
  is_dir_line l = true -> is_file_line l = false.
Proof.
  unfold is_dir_line, is_file_line, startswith. intros H.
  apply String.prefix_correct in H.
  destruct l as [|c1 [|c2 [|c3 [|c4 l]]]]; simpl in H; try discriminate.
  injection H as -> -> -> ->. reflexivity.
Qed.

Lemma parse_loop_filter (ls directories files : list string) :
  parse_loop ls directories files =
  ((directories ++ map (drop_chars 4) (List.filter is_dir_line ls))%list,
   (files ++ map (drop_chars 4) (List.filter is_file_line ls))%list).
Proof.
  revert directories files.
  induction ls as [|line rest IH]; intros directories files; cbn [parse_loop List.filter map].
  - rewrite !app_nil_r. reflexivity.
  - change (startswith line "[d] ") with (is_dir_line line).
    change (startswith line "[f] ") with (is_file_line line).
    destruct (String.eqb line "") eqn:Hempty.
    + apply String.eqb_eq in Hempty. subst line. apply IH.
    + destruct (is_dir_line line) eqn:Hd.
      * rewrite (dir_tag_not_file_tag line Hd).
        rewrite IH, <- app_assoc. reflexivity.
      * destruct (is_file_line line) eqn:Hf.
        -- rewrite IH, <- app_assoc. reflexivity.
        -- apply IH.
Qed.

(** C9 (counterexample): the claim reads the remainder of each tagged
    line of the text; on ["[f] /x "] that remainder is ["/x "], but the
    parser strips the whole text first and yields ["/x"]. *)
Lemma C9_strip_cex :
  parse_rmapi_find "[f] /x " = ([], ["/x"])
  /\ listing_by_lines "[f] /x " = ([], ["/x "])
  /\ parse_rmapi_find "[f] /x " <> listing_by_lines "[f] /x ".
Proof. vm_compute. split; [reflexivity|split; [reflexivity|discriminate]]. Qed.

(** C9 (amended): the parser strips leading and trailing whitespace off
    the whole text, splits it on newlines, and then each line tagged
    ['[d] '] gives its remainder to the directories and each line tagged
    ['[f] '] to the files, in input order; other lines (empty ones
    included) are skipped; no line is tagged both ways, so each line
    contributes to at most one sequence; the empty text gives two empty
    sequences. *)
Theorem C9_parse_rmapi_find_lines (text : string) :
  parse_rmapi_find text = listing_by_lines (strip text)
  /\ (forall l : string, ~ (is_dir_line l = true /\ is_file_line l = true))
  /\ parse_rmapi_find "" = ([], []).
Proof.
  split; [|split].
  - unfold parse_rmapi_find, listing_by_lines. apply parse_loop_filter.
  - intros l [Hd Hf]. rewrite (dir_tag_not_file_tag l Hd) in Hf. discriminate.
  - reflexivity.
Qed.

End ListingFacts.

Module OutPathFacts.
Import Py OutPath.

(** C7 (code_bug evidence): [str.replace] removes every ['.rmdoc'] in
    the base name, not only the extension: the archive
    ["/out/a.rmdoc b.rmdoc"] (remote document ["/a.rmdoc b"]) is converted
    to ["/out/a b.pdf"], not to ["/out/a.rmdoc b.pdf"]. *)
Theorem C7_final_path_replaces_inner :
  final_pdf_path "/out/a.rmdoc b.rmdoc" = "/out/a b.pdf"
  /\ final_pdf_path "/out/a.rmdoc b.rmdoc" <> "/out/a.rmdoc b.pdf".
Proof. vm_compute. split; [reflexivity|discriminate]. Qed.

End OutPathFacts.

Module MirrorFacts.
Import Py Mirror.

Section Facts.
Variable denied : list string -> bool.

Lemma mkdir_spec (p : list string) (fs fs' : fsys) (r : option oserror) :
  mkdir denied p fs = (fs', r) ->
  (forall q x, fs !! q = Some x -> fs' !! q = Some x)
  /\ (wf fs -> wf fs')
  /\ (forall q, fs' !! q = fs !! q \/ q = p).
Proof.
  unfold mkdir. intros H.
  destruct p as [|c p'] eqn:Hp; [injection H as <- <-; auto|].
  rewrite <- Hp in H |- *.
  destruct (fs !! p) eqn:Hfs; [injection H as <- <-; auto|].
  destruct (negb (bool_decide (removelast p = [])) && negb (is_dir fs (removelast p))) eqn:Hpar;
    [injection H as <- <-; auto|].
  destruct (denied p); [injection H as <- <-; auto|].
  injection H as <- <-. split; [|split].
  - intros q x Hq. rewrite lookup_insert_ne; [exact Hq|congruence].
  - intros [Hroot Hwf]. split.
    + rewrite lookup_insert_ne; [exact Hroot|subst p; discriminate].
    + intros q c' Hq Hin.
      destruct (decide (p = (q ++ [c'])%list)) as [Heq|Hne].
      * rewrite lookup_insert_ne.
        -- rewrite Heq, removelast_last in Hpar.
           apply andb_false_iff in Hpar as [Hpar|Hpar].
           ++ apply negb_false_iff, bool_decide_eq_true in Hpar. contradiction.
           ++ apply negb_false_iff in Hpar. unfold is_dir in Hpar.
              apply bool_decide_eq_true in Hpar. exact Hpar.
        -- intros ->. rewrite <- app_nil_r in Heq at 1.
           apply app_inv_head in Heq. discriminate.
      * rewrite lookup_insert_ne in Hin; [|congruence].
        apply (Hwf q c' Hq) in Hin.
        destruct (decide (p = q)) as [->|Hpq].
        -- rewrite Hin in Hfs. discriminate.
        -- rewrite lookup_insert_ne; [exact Hin|congruence].
  - intros q. destruct (decide (p = q)) as [->|Hpq]; [right; reflexivity|].
    left. apply lookup_insert_ne. exact Hpq.
Qed.

Lemma grows_refl (fs : fsys) (P : list string -> Prop) : grows fs fs P.
Proof. split; [auto|split; auto]. Qed.

Lemma grows_trans (fs1 fs2 fs3 : fsys) (P Q R : list string -> Prop) :
  grows fs1 fs2 P -> grows fs2 fs3 Q ->
  (forall q, P q -> R q) -> (forall q, Q q -> R q) -> grows fs1 fs3 R.
Proof.
  intros [A1 [A2 A3]] [B1 [B2 B3]] HP HQ. split; [|split].
  - auto.
  - auto.
  - intros q. destruct (B3 q) as [->|]; [|auto]. destruct (A3 q); auto.
Qed.

Lemma mkdir_grows (p : list string) (fs fs' : fsys) (r : option oserror) :
  mkdir denied p fs = (fs', r) -> grows fs fs' (fun q => q = p).
Proof. apply mkdir_spec. Qed.

Lemma makedirs_rev_grows (rp : list string) (fs fs' : fsys) (r : option oserror) :
  makedirs_rev denied rp fs = (fs', r) -> grows fs fs' (fun q => q `prefix_of` rev rp).
Proof.
  revert fs fs' r.
  induction rp as [|c rhead IH]; intros fs fs' r H.
  - injection H as <- <-. apply grows_refl.
  - cbn [makedirs_rev] in H.
    assert (Hhead : exists fs1 r1,
      (if negb (bool_decide (rhead = [])) && bool_decide (fs !! rev rhead = None) then
          match makedirs_rev denied rhead fs with
          | (fs', Some EExist) => (fs', None)
          | res => res
          end
        else (fs, None)) = (fs1, r1)
      /\ grows fs fs1 (fun q => q `prefix_of` rev rhead)).
    { destruct (negb _ && _).
      - destruct (makedirs_rev denied rhead fs) as [fsA rA] eqn:HA.
        apply IH in HA.
        destruct rA as [[|]|]; eexists _, _; split; first [reflexivity | exact HA].
      - eexists _, _. split; [reflexivity|apply grows_refl]. }
    destruct Hhead as (fs1 & r1 & Heq & G1). rewrite Heq in H.
    assert (Hpre : forall q, q `prefix_of` rev rhead -> q `prefix_of` rev (c :: rhead)).
    { intros q Hq. simpl. apply prefix_app_r. exact Hq. }
    destruct r1 as [e|].
    + injection H as <- <-.
      eapply grows_trans; [exact G1|apply (grows_refl _ (fun _ => False))|exact Hpre|intros q []].
    + destruct (mkdir denied (rev (c :: rhead)) fs1) as [fs2 [e|]] eqn:HM;
        apply mkdir_grows in HM;
        [destruct (is_dir fs2 (rev (c :: rhead))); injection H as <- <-|injection H as <- <-];
        (eapply grows_trans; [exact G1|exact HM|exact Hpre|intros q ->; reflexivity]).
Qed.

Lemma mkdir_existing (p : list string) (fs : fsys) (x : node) :
  p <> [] -> fs !! p = Some x -> mkdir denied p fs = (fs, Some EExist).
Proof. intros Hp Hx. destruct p as [|c p']; [contradiction|]. simpl. rewrite Hx. reflexivity. Qed.

Lemma makedirs_rev_existing (rp : list string) (fs : fsys) :
  wf fs -> fs !! rev rp = Some NDir -> makedirs_rev denied rp fs = (fs, None).
Proof.
  intros [Hroot Hwf] Hdir.
  destruct rp as [|c rhead]; [simpl in Hdir; congruence|].
  assert (Hne : rev (c :: rhead) <> []).
  { simpl. intros Habs. apply app_nil in Habs as [_ Habs]. discriminate. }
  cbn [makedirs_rev].
  destruct (negb (bool_decide (rhead = [])) && bool_decide (fs !! rev rhead = None)) eqn:Hc.
  - exfalso. apply andb_true_iff in Hc as [H1 H2].
    apply negb_true_iff, bool_decide_eq_false in H1.
    apply bool_decide_eq_true in H2.
    simpl in Hdir. apply Hwf in Hdir.
    + congruence.
    + intros Habs. apply H1. destruct rhead; [reflexivity|].
      simpl in Habs. apply app_nil in Habs as [_ Habs]. discriminate.
  - rewrite (mkdir_existing _ _ _ Hne Hdir). unfold is_dir.
    rewrite bool_decide_eq_true_2; [reflexivity|exact Hdir].
Qed.

Lemma makedirs_existing (path : string) (fs : fsys) :
  wf fs -> fs !! norm path = Some NDir -> makedirs denied path fs = (fs, None).
Proof.
  intros Hwf Hdir. unfold makedirs. apply makedirs_rev_existing; [exact Hwf|].
  rewrite rev_involutive. exact Hdir.
Qed.

Lemma mirror_loop_paths (root : string) (ds : list string) (fs : fsys) :
  map event_path (snd (mirror_loop denied root ds fs)) = map (full_path root) ds
  /\ Forall (fun ev => exists p, ev = DirOk p \/ ev = DirError p) (snd (mirror_loop denied root ds fs)).
Proof.
  revert fs. induction ds as [|d rest IH]; intros fs; [split; [reflexivity|constructor]|].
  cbn [mirror_loop].
  destruct (makedirs denied (full_path root d) fs) as [fs1 r].
  destruct (mirror_loop denied root rest fs1) as [fs2 evs] eqn:E.
  destruct (IH fs1) as [IH1 IH2]. rewrite E in IH1, IH2. simpl in IH1, IH2 |- *.
  split.
  - destruct r; simpl; f_equal; exact IH1.
  - constructor; [|exact IH2]. exists (full_path root d). destruct r; auto.
Qed.

Lemma mirror_loop_app (root : string) (ds1 ds2 : list string) (fs : fsys) :
  mirror_loop denied root (ds1 ++ ds2) fs =
  let '(fsA, evs1) := mirror_loop denied root ds1 fs in
  let '(fsB, evs2) := mirror_loop denied root ds2 fsA in
  (fsB, evs1 ++ evs2)%list.
Proof.
  revert fs. induction ds1 as [|d rest IH]; intros fs.
  - simpl. destruct (mirror_loop denied root ds2 fs). reflexivity.
  - cbn [mirror_loop app].
    destruct (makedirs denied (full_path root d) fs) as [fs1 r].
    rewrite IH.
    destruct (mirror_loop denied root rest fs1) as [fsA evs1].
    destruct (mirror_loop denied root ds2 fsA) as [fsB evs2].
    reflexivity.
Qed.

Lemma mirror_loop_existing (root : string) (ds : list string) (fs : fsys) :
  wf fs ->
  forall (i : nat) (d : string), ds !! i = Some d ->
  fs !! norm (full_path root d) = Some NDir ->
  snd (mirror_loop denied root ds fs) !! i = Some (DirOk (full_path root d)).
Proof.
  revert fs. induction ds as [|d0 rest IH]; intros fs Hwf i d Hi Hdir; [discriminate|].
  cbn [mirror_loop].
  destruct i as [|i].
  - injection Hi as <-. rewrite (makedirs_existing _ _ Hwf Hdir).
    destruct (mirror_loop denied root rest fs). reflexivity.
  - destruct (makedirs denied (full_path root d0) fs) as [fs1 r] eqn:HM.
    unfold makedirs in HM. apply makedirs_rev_grows in HM as [G1 [G2 _]].
    specialize (IH fs1 (G2 Hwf) i d Hi (G1 _ _ Hdir)).
    destruct (mirror_loop denied root rest fs1). simpl in IH |- *.
    destruct r; exact IH.
Qed.

End Facts.

(** C8: [ensure_directories_exist].  (1) When creating the output root
    fails, nothing else is attempted: the only report is the root error
    and the file system differs from the original only at the root path
    and its ancestors, so no entry directory is created.  (2) When the
    root exists, a failure on one entry is reported for that entry and
    every later entry still gets its own attempt and report, in order.
    (3) In a well-formed file system an entry whose directory already
    exists is reported as created or existing, never as an error (the
    root existing already is no error either). *)
Theorem C8_ensure_directories_exist (denied : list string -> bool)
    (root : string) (fs : fsys) :
  (forall (ds : list string) (fs1 : fsys) (e : oserror),
     makedirs denied root fs = (fs1, Some e) ->
     ensure_directories_exist denied root ds fs = (fs1, [BaseError root])
     /\ forall q, fs1 !! q = fs !! q \/ q `prefix_of` norm root)
  /\ (forall (ds1 ds2 : list string) (d : string) (fs1 fsA fsB : fsys)
            (evs1 : list event) (e : oserror),
     makedirs denied root fs = (fs1, None) ->
     mirror_loop denied root ds1 fs1 = (fsA, evs1) ->
     makedirs denied (full_path root d) fsA = (fsB, Some e) ->
     exists evs2,
       snd (ensure_directories_exist denied root (ds1 ++ d :: ds2) fs)
         = (evs1 ++ DirError (full_path root d) :: evs2)%list
       /\ map event_path evs2 = map (full_path root) ds2)
  /\ (forall (ds : list string), wf fs -> fs !! norm root = Some NDir ->
     makedirs denied root fs = (fs, None)
     /\ forall (i : nat) (d : string), ds !! i = Some d ->
        fs !! norm (full_path root d) = Some NDir ->
        snd (ensure_directories_exist denied root ds fs) !! i
          = Some (DirOk (full_path root d))).
Proof.
  split; [|split].
  - intros ds fs1 e HM. unfold ensure_directories_exist. rewrite HM. split; [reflexivity|].
    unfold makedirs in HM. apply makedirs_rev_grows in HM as [_ [_ G3]].
    rewrite rev_involutive in G3. exact G3.
  - intros ds1 ds2 d fs1 fsA fsB evs1 e HR HL HM.
    unfold ensure_directories_exist. rewrite HR, mirror_loop_app, HL.
    cbn [mirror_loop]. rewrite HM.
    destruct (mirror_loop denied root ds2 fsB) as [fsC evs2] eqn:E.
    exists evs2. split; [reflexivity|].
    pose proof (proj1 (mirror_loop_paths denied root ds2 fsB)) as P. rewrite E in P. exact P.
  - intros ds Hwf Hroot. pose proof (makedirs_existing denied _ _ Hwf Hroot) as HR.
    split; [exact HR|].
    unfold ensure_directories_exist. rewrite HR. apply mirror_loop_existing. exact Hwf.
Qed.

Lemma wf_check_sound (fs : fsys) : wf_check fs = true -> wf fs.
Proof.
  unfold wf_check. intros H. apply andb_true_iff in H as [H0 H].
  apply bool_decide_eq_true in H0. split; [exact H0|].
  intros p c Hp Hin.
  apply forallb_forall with (x := ((p ++ [c])%list, NDir)) in H.
  - rewrite removelast_last in H. apply orb_true_iff in H as [H|H].
    + apply bool_decide_eq_true in H. contradiction.
    + unfold is_dir in H. apply bool_decide_eq_true in H. exact H.
  - apply list_elem_of_In. apply elem_of_map_to_list. exact Hin.
Qed.

(** A witness of C8 (3): in ["/out"], the existing ["/out/a"] is reported
    as created or existing. *)
Lemma C8_witness :
  wf Samples.fs0 /\ Samples.fs0 !! norm "/out" = Some NDir
  /\ Samples.fs0 !! norm (full_path "/out" "/a") = Some NDir
  /\ snd (ensure_directories_exist (fun _ => false) "/out" ["/a"] Samples.fs0) !! 0
     = Some (DirOk (full_path "/out" "/a")).
Proof.
  assert (Hwf : wf Samples.fs0) by (apply wf_check_sound; vm_compute; reflexivity).
  assert (Hr : Samples.fs0 !! norm "/out" = Some NDir) by (vm_compute; reflexivity).
  assert (Hd : Samples.fs0 !! norm (full_path "/out" "/a") = Some NDir) by (vm_compute; reflexivity).
  split; [exact Hwf|split; [exact Hr|split; [exact Hd|]]].
  apply (proj2 (proj2 (proj2 (C8_ensure_directories_exist (fun _ => false) "/out" Samples.fs0))
                  ["/a"] Hwf Hr) 0 "/a"); [reflexivity|exact Hd].
Defined.

End MirrorFacts.

Module PipelineFacts.
Import Py Pipeline Samples.

Section Facts.
Variable rmc : entry -> proc_result.

Lemma log_trees (ev : event) (w : world) : w_trees (snd (log ev w)) = w_trees w.
Proof. reflexivity. Qed.

(** The outer [try ... finally] of [process_rmdoc_file]: whatever the
    body did, the result is what the body returned, in the world the
    cleanup left. *)
Lemma process_unfold (rmdoc_file_path uuid : string) (archive : option (list entry)) (w : world) :
  let d := OutPath.temp_extract_dir rmdoc_file_path uuid in
  let final := OutPath.final_pdf_path rmdoc_file_path in
  let '(r, w2) := process_body rmc d final archive (snd (log (EStart rmdoc_file_path) w)) in
  let w3 := snd (log (ECleanup d) (snd (rmtree d w2))) in
  process_rmdoc_file rmc rmdoc_file_path uuid archive w =
  match r with
  | Val _ => (Val tt, snd (log (EFinal final) w3))
  | Ret => (Val tt, w3)
  | Raise e => (Raise e, w3)
  end.
Proof.
  cbv zeta.
  destruct (process_body rmc _ _ archive _) as [r w2] eqn:E.
  unfold process_rmdoc_file, func, mbind, try_finally.
  cbn [snd log] in E |- *. rewrite E. destruct r; reflexivity.
Qed.

Lemma find_rm_str (s : string) (es : list entry) :
  find_rm (JStr s) es = Val None
  \/ exists e, find_rm (JStr s) es = Val (Some (s, e)) /\ In e es.
Proof.
  induction es as [|e rest IH]; [left; reflexivity|].
  cbn [find_rm].
  destruct (startswith (e_name e) s && endswith (e_name e) ".rm").
  - right. exists e. split; [reflexivity|left; reflexivity].
  - destruct IH as [IH|(e' & IH & Hin)]; [left; exact IH|].
    right. exists e'. split; [exact IH|right; exact Hin].
Qed.

Lemma page_src_find (s : string) (es : list entry) (e : entry) :
  page_src es s = Some e <-> find_rm (JStr s) es = Val (Some (s, e)).
Proof.
  unfold page_src. split.
  - destruct (find_rm_str s es) as [H|(e' & H & _)]; rewrite H; [discriminate|].
    intros [= ->]. reflexivity.
  - intros ->. reflexivity.
Qed.

Lemma page_src_none (s : string) (es : list entry) :
  page_src es s = None -> find_rm (JStr s) es = Val None.
Proof.
  unfold page_src. destruct (find_rm_str s es) as [H|(e' & H & _)]; rewrite H; [auto|discriminate].
Qed.

Lemma merge_calls_app (l1 l2 : list event) :
  merge_calls (l1 ++ l2)%list = (merge_calls l1 ++ merge_calls l2)%list.
Proof.
  induction l1 as [|ev rest IH]; [reflexivity|].
  destruct ev; cbn [app merge_calls]; rewrite ?IH; reflexivity.
Qed.

(** The page loop never calls the Merger and only appends to the log. *)
Lemma convert_pages_log (d : string) (page_ids : list json) (acc : list string) (w : world) :
  exists l, w_log (snd (convert_pages rmc d page_ids acc w)) = (w_log w ++ l)%list
            /\ merge_calls l = [].
Proof.
  revert acc w. induction page_ids as [|page_id rest IH]; intros acc w.
  - exists []. rewrite app_nil_r. split; reflexivity.
  - cbn [convert_pages]. unfold mbind, get_tree, lift, log, write_file, raise.
    cbn [fst snd w_log w_trees w_files].
    destruct (find_rm page_id _) as [[[s rm_file]|]| |e]; cbn [fst snd w_log];
      [destruct (rmc rm_file) as [[|code]|]; cbn [fst snd w_log] | | |];
      first [ match goal with
              | |- context [convert_pages rmc d rest ?a ?w'] =>
                  destruct (IH a w') as (l & Hl & Hm); cbn [w_log] in Hl;
                  rewrite Hl, <- app_assoc;
                  eexists; split; [reflexivity|]; cbn [merge_calls app]; exact Hm
              end
            | exists []; rewrite app_nil_r; split; reflexivity ].
Qed.


Lemma las_app (x y : string) :
  list_ascii_of_string (x +:+ y) = (list_ascii_of_string x ++ list_ascii_of_string y)%list.
Proof. induction x as [|c x IH]; simpl; [reflexivity|]. rewrite IH. reflexivity. Qed.





Lemma prefix_cons (a b : ascii) (s1 s2 : string) :
  String.prefix (String a s1) (String b s2) = if ascii_dec a b then String.prefix s1 s2 else false.
Proof. reflexivity. Qed.

Lemma append_cons (c : ascii) (r s : string) : String c r +:+ s = String c (r +:+ s).
Proof. reflexivity. Qed.










Lemma body_json_error (d final : string) (zip : list entry) (content_file : entry) (w : world) :
  find_content zip = Some content_file ->
  (forall j, e_data content_file <> DJson j) ->
  fst (process_body rmc d final (Some zip) w) = Raise JSONDecodeError.
Proof.
  intros Hc Hj. unfold process_body, mbind, set_tree, get_tree. cbn [fst snd w_trees].
  rewrite lookup_insert_eq. rewrite Hc.
  unfold lift, json_load.
  destruct (e_data content_file); [exfalso; eapply Hj; reflexivity| reflexivity..].
Qed.

Lemma temp_dir_removed (rmdoc_file_path uuid : string) (archive : option (list entry)) (w : world) :
  w_trees (snd (process_rmdoc_file rmc rmdoc_file_path uuid archive w))
    !! OutPath.temp_extract_dir rmdoc_file_path uuid = None.
Proof.
  pose proof (process_unfold rmdoc_file_path uuid archive w) as H. cbv zeta in H.
  destruct (process_body rmc _ _ archive _) as [r w2]. rewrite H.
  destruct r; apply lookup_delete_eq.
Qed.

Lemma temp_files_removed (rmdoc_file_path uuid : string) (archive : option (list entry))
    (w : world) (k : string) :
  startswith k (OutPath.temp_extract_dir rmdoc_file_path uuid +:+ "/") = true ->
  w_files (snd (process_rmdoc_file rmc rmdoc_file_path uuid archive w)) !! k = None.
Proof.
  intros Hk. pose proof (process_unfold rmdoc_file_path uuid archive w) as H. cbv zeta in H.
  destruct (process_body rmc _ _ archive _) as [r w2]. rewrite H.
  destruct r; cbn [snd log rmtree w_files];
    apply map_lookup_filter_None; right; intros x _ Hx; exact (eq_true_false_abs _ Hk Hx).
Qed.



Lemma path_exists_top (es : list entry) (name : string) (e : entry) :
  List.find (fun e => bool_decide (e_dir e = []) && String.eqb (e_name e) name) es = Some e ->
  path_exists es [name] = true.
Proof.
  intros Hf. apply find_some in Hf as [Hin Hp].
  apply andb_prop in Hp as [Hd Hn]. apply bool_decide_eq_true in Hd.
  apply String.eqb_eq in Hn.
  unfold path_exists. apply existsb_exists. exists e. split; [exact Hin|].
  rewrite Hd, Hn. cbn. rewrite String.eqb_refl. reflexivity.
Qed.

End Facts.

(** C6: whatever the archive holds and however the body ends (a copy, a
    reconstruction with failing pages, a fallback copy, a [return] or an
    exception), the extraction directory and every file below it, the
    rendered pages included, are gone from the file system when
    [process_rmdoc_file] finishes. *)
Theorem C6_extraction_dir_removed (rmc : entry -> proc_result)
    (rmdoc_file_path uuid : string) (archive : option (list entry)) (w : world) :
  w_trees (snd (process_rmdoc_file rmc rmdoc_file_path uuid archive w))
    !! OutPath.temp_extract_dir rmdoc_file_path uuid = None
  /\ (forall k, startswith k (OutPath.temp_extract_dir rmdoc_file_path uuid +:+ "/") = true ->
      w_files (snd (process_rmdoc_file rmc rmdoc_file_path uuid archive w)) !! k = None).
Proof.
  split; [apply temp_dir_removed|]. intros k Hk. apply temp_files_removed. exact Hk.
Qed.



(** C5: once the page loop has run, an empty page list makes the
    function [return] after reporting that no page was produced, with
    no call to [merge_pdfs]; a non-empty one is passed to [merge_pdfs]
    exactly once. *)
Theorem C5_merge_once_or_abort (rmc : entry -> proc_result)
    (d final : string) (cd : json) (page_ids : list json) (pdf_pages : list string) (w w1 : world) :
  page_ids_of cd = Val page_ids ->
  convert_pages rmc d page_ids [] w = (Val pdf_pages, w1) ->
  merge_calls (w_log w1) = merge_calls (w_log w)
  /\ (pdf_pages = [] ->
      native rmc d final cd w = (Ret, mk_world (w_trees w1) (w_files w1) (w_log w1 ++ [ENoPages])%list))
  /\ (pdf_pages <> [] ->
      merge_calls (w_log (snd (native rmc d final cd w))) = (merge_calls (w_log w) ++ [pdf_pages])%list).
Proof.
  intros Hp Hc.
  assert (Hm : merge_calls (w_log w1) = merge_calls (w_log w)).
  { destruct (convert_pages_log rmc d page_ids [] w) as (l & Hl & Hz).
    rewrite Hc in Hl. cbn [snd] in Hl. rewrite Hl, merge_calls_app, Hz, app_nil_r. reflexivity. }
  split; [exact Hm|]. unfold native, mbind, lift. rewrite Hp, Hc.
  split.
  - intros ->. reflexivity.
  - intros Hne. destruct pdf_pages as [|p0 ps]; [contradiction|].
    unfold join_pages, merge_pdfs, mbind, log. cbn [fst snd w_trees w_files w_log].
    destruct (read_pdfs _ _); unfold write_file, mret; cbn [fst snd w_trees w_files w_log];
      rewrite !merge_calls_app, Hm; cbn [merge_calls]; rewrite ?app_nil_r; reflexivity.
Qed.

(** C2, as the code has it: once the manifest has been parsed, the check
    for an embedded PDF looks only at the top of the extraction tree
    ([os.path.exists(join(temp_extract_dir, name))]).  (1) A top-level
    file [<stem>.pdf] makes the rest of the body the message and the copy
    of that file to the final path ([shutil.copyfile]) and nothing else:
    no page reconstruction, whatever pages the manifest lists.  (2) With no
    top-level entry of that name, a [<stem>.pdf] in a subdirectory
    included, the body goes on to the page list: reconstruction, under the
    [KeyError] fallback. *)
Theorem C2_top_level_pdf_copied (rmc : entry -> proc_result)
    (d final : string) (zip : list entry) (content_file : entry) (j : json) (w : world) :
  find_content zip = Some content_file ->
  e_data content_file = DJson j ->
  let pdf_name := stem (e_name content_file) +:+ ".pdf" in
  let w1 := mk_world (<[d := zip]> (w_trees w)) (w_files w) (w_log w) in
  (forall e, List.find (fun e => bool_decide (e_dir e = []) && String.eqb (e_name e) pdf_name) zip
               = Some e ->
     process_body rmc d final (Some zip) w
     = (log (EEmbedded (join d pdf_name)) ;;; write_file final (e_data e)) w1)
  /\ (path_exists zip [pdf_name] = false ->
     process_body rmc d final (Some zip) w
     = try_except_key (native rmc d final j) (fallback d final) w1).
Proof.
  intros Hc Hj pdf_name w1. subst pdf_name w1.
  unfold process_body, mbind, set_tree, get_tree, lift. cbn [w_trees w_files w_log].
  rewrite lookup_insert_eq, Hc, Hj. cbn [json_load]. split.
  - intros e Hf. rewrite (path_exists_top zip _ e Hf). unfold log.
    cbn [w_trees w_files w_log]. rewrite Hf. reflexivity.
  - intros Hp. rewrite Hp. reflexivity.
Qed.

(** C10: a manifest entry whose contents are not JSON makes [json.load]
    raise; nothing in [process_rmdoc_file] catches it, so it leaves the
    function (after the extraction directory is removed) and the main
    loop, which processes no further file. *)
Theorem C10_invalid_manifest_raises (rmc : entry -> proc_result)
    (archive_of : string -> option (list entry)) (uuid_of : string -> string)
    (output f : string) (rest : list string) (w : world)
    (zip : list entry) (content_file : entry) :
  archive_of f = Some zip ->
  find_content zip = Some content_file ->
  (forall j, e_data content_file <> DJson j) ->
  let p := rmdoc_path output f in
  let res := process_rmdoc_file rmc p (uuid_of f) (archive_of f) w in
  fst res = Raise JSONDecodeError
  /\ w_trees (snd res) !! OutPath.temp_extract_dir p (uuid_of f) = None
  /\ main_loop rmc archive_of uuid_of output (f :: rest) w = res.
Proof.
  intros Ha Hc Hj p res.
  assert (Hres : fst res = Raise JSONDecodeError).
  { unfold res. pose proof (process_unfold rmc p (uuid_of f) (archive_of f) w) as H. cbv zeta in H.
    pose proof (body_json_error rmc (OutPath.temp_extract_dir p (uuid_of f))
                  (OutPath.final_pdf_path p) zip content_file
                  (snd (log (EStart p) w)) Hc Hj) as HB.
    rewrite Ha in H |- *. destruct (process_body rmc _ _ (Some zip) _) as [r w2].
    rewrite H. cbn in HB. subst r. reflexivity. }
  split; [exact Hres|split].
  - apply temp_dir_removed.
  - cbn [main_loop]. unfold mbind. fold p. fold res.
    destruct res as [r w'] eqn:E. cbn in Hres. subst r. reflexivity.
Qed.

(** C1 (code): [pdf_pages.append] runs before [rmc] (main.py 319-320),
    so the [continue] after a failed conversion comes too late.  With
    page [a] failing, its never-written rendering is still handed to
    [merge_pdfs], the merge fails and no output document is written. *)
Theorem C1_failed_page_still_merged :
  let r := process_rmdoc_file (fails_on "a") "/o/n.rmdoc" "u"
             (Some [manifest ["a"; "b"]; rm "a"; rm "b"]) w0 in
  merge_calls (w_log (snd r)) = [["/o/temp_extract_u/a.pdf"; "/o/temp_extract_u/b.pdf"]]
  /\ In (EConvertError "a") (w_log (snd r))
  /\ In (EConverted "b") (w_log (snd r))
  /\ In EMergeError (w_log (snd r))
  /\ w_files (snd r) !! "/o/n.pdf" = None.
Proof. vm_compute. intuition. Qed.

(** C2 as stated fails for a [<stem>.pdf] below a subdirectory of the
    extraction tree: the check [os.path.exists(join(root, name))] does
    not see it, and the pages are reconstructed instead of the PDF being
    copied. *)
Lemma C2_nested_pdf_cex :
  let r := process_rmdoc_file all_ok "/o/n.rmdoc" "u"
             (Some [manifest ["a"]; rm "a"; mk_entry ["doc"] "doc.pdf" (DPdf ["embedded"])]) w0 in
  w_files (snd r) !! "/o/n.pdf" = Some (DPdf ["doc/a.rm"])
  /\ w_files (snd r) !! "/o/n.pdf" <> Some (DPdf ["embedded"])
  /\ merge_calls (w_log (snd r)) = [["/o/temp_extract_u/a.pdf"]].
Proof. vm_compute. split; [reflexivity|split; [discriminate|reflexivity]]. Qed.

Lemma C2_witness :
  process_body all_ok "t" "f"
    (Some [manifest ["a"]; rm "a"; mk_entry [] "doc.pdf" (DPdf ["embedded"])]) w0
  = (log (EEmbedded (join "t" "doc.pdf")) ;;; write_file "f" (DPdf ["embedded"]))
      (mk_world {[ "t" := [manifest ["a"]; rm "a"; mk_entry [] "doc.pdf" (DPdf ["embedded"])] ]} ∅ [])
  /\ process_body all_ok "t" "f"
       (Some [manifest ["a"]; rm "a"; mk_entry ["doc"] "doc.pdf" (DPdf ["embedded"])]) w0
  = try_except_key (native all_ok "t" "f" (manifest_json ["a"])) (fallback "t" "f")
      (mk_world {[ "t" := [manifest ["a"]; rm "a"; mk_entry ["doc"] "doc.pdf" (DPdf ["embedded"])] ]} ∅ []).
Proof.
  split.
  - apply (proj1 (C2_top_level_pdf_copied all_ok "t" "f"
             [manifest ["a"]; rm "a"; mk_entry [] "doc.pdf" (DPdf ["embedded"])]
             (manifest ["a"]) (manifest_json ["a"]) w0 eq_refl eq_refl)
             (mk_entry [] "doc.pdf" (DPdf ["embedded"]))).
    vm_compute. reflexivity.
  - apply (proj2 (C2_top_level_pdf_copied all_ok "t" "f"
             [manifest ["a"]; rm "a"; mk_entry ["doc"] "doc.pdf" (DPdf ["embedded"])]
             (manifest ["a"]) (manifest_json ["a"]) w0 eq_refl eq_refl)).
    vm_compute. reflexivity.
Defined.



Lemma C5_witness :
  merge_calls (w_log (snd (native all_ok "t" "f" (manifest_json ["a"; "b"]) (mk_world {[ "t" := [rm "a"; rm "b"] ]} ∅ []))))
  = ([] ++ [["t/a.pdf"; "t/b.pdf"]])%list.
Proof.
  apply (C5_merge_once_or_abort all_ok "t" "f" (manifest_json ["a"; "b"])
           (map JStr ["a"; "b"]) ["t/a.pdf"; "t/b.pdf"] (mk_world {[ "t" := [rm "a"; rm "b"] ]} ∅ [])
           (snd (convert_pages all_ok "t" (map JStr ["a"; "b"]) [] (mk_world {[ "t" := [rm "a"; rm "b"] ]} ∅ [])))).
  - reflexivity.
  - vm_compute. reflexivity.
  - discriminate.
Defined.

Lemma C6_witness :
  w_files (snd (process_rmdoc_file (fails_on "a") "/o/n.rmdoc" "u"
                  (Some [manifest ["a"; "b"]; rm "a"; rm "b"]) w0))
    !! "/o/temp_extract_u/b.pdf" = None.
Proof.
  apply (proj2 (C6_extraction_dir_removed (fails_on "a") "/o/n.rmdoc" "u"
                  (Some [manifest ["a"; "b"]; rm "a"; rm "b"]) w0)).
  reflexivity.
Defined.

Lemma C10_witness :
  let archive_of := fun _ : string => Some [mk_entry [] "doc.content" (DBlob "not json")] in
  let res := process_rmdoc_file all_ok (rmdoc_path "/o" "/n") "u" (archive_of "/n") w0 in
  fst res = Raise JSONDecodeError
  /\ w_trees (snd res) !! OutPath.temp_extract_dir (rmdoc_path "/o" "/n") "u" = None
  /\ main_loop all_ok archive_of (fun _ => "u") "/o" ["/n"] w0 = res.
Proof.
  apply (C10_invalid_manifest_raises all_ok
           (fun _ => Some [mk_entry [] "doc.content" (DBlob "not json")]) (fun _ => "u")
           "/o" "/n" [] w0 [mk_entry [] "doc.content" (DBlob "not json")]
           (mk_entry [] "doc.content" (DBlob "not json"))).
  - reflexivity.
  - reflexivity.
  - intros j. discriminate.
Defined.

End PipelineFacts.

(* ------------------------------------------------------------------ *)
(** ** More of the code: path facts *)

Module PathFacts.
Import Py PipelineFacts.

Lemma str_app_assoc (x y z : string) : (x +:+ y) +:+ z = x +:+ (y +:+ z).
Proof. induction x as [|c x IH]; [reflexivity|]. rewrite !append_cons, IH. reflexivity. Qed.

Lemma prefix_app_same (q a b : string) :
  String.prefix (q +:+ a) (q +:+ b) = String.prefix a b.
Proof.
  induction q as [|c q IH]; [reflexivity|].
  rewrite !append_cons, prefix_cons. destruct (ascii_dec c c); [exact IH|contradiction].
Qed.

Lemma has_slash_app (x y : string) : has_slash (x +:+ y) = has_slash x || has_slash y.
Proof.
  induction x as [|c x IH]; [reflexivity|]. rewrite append_cons. cbn [has_slash].
  rewrite IH, orb_assoc. reflexivity.
Qed.

(** A string with a prefix containing ['/'] contains ['/']. *)
Lemma prefix_slash (q s : string) :
  String.prefix q s = true -> has_slash q = true -> has_slash s = true.
Proof.
  revert s. induction q as [|c q IH]; intros s Hp Hq; [discriminate|].
  destruct s as [|c' s]; [discriminate|].
  rewrite prefix_cons in Hp. destruct (ascii_dec c c') as [<-|]; [|discriminate].
  cbn [has_slash] in Hq |- *. apply orb_true_iff in Hq as [Hq|Hq].
  - rewrite Hq. reflexivity.
  - rewrite (IH s Hp Hq). apply orb_true_r.
Qed.

Lemma no_slash_not_abs (x : string) : has_slash x = false -> startswith x "/" = false.
Proof.
  intros Hx. destruct (startswith x "/") eqn:H; [|reflexivity].
  apply prefix_slash in H; [congruence|reflexivity].
Qed.

Lemma basename_no_slash (s : string) : has_slash (basename s) = false.
Proof.
  induction s as [|c r IH]; [reflexivity|]. cbn [basename].
  destruct (has_slash r) eqn:Hr; [exact IH|].
  destruct (Ascii.eqb c "/"%char) eqn:Hc; [exact Hr|].
  cbn [has_slash]. rewrite Hc, Hr. reflexivity.
Qed.

Lemma drop_chars_no_slash (n : nat) (s : string) :
  has_slash s = false -> has_slash (drop_chars n s) = false.
Proof.
  revert s. induction n as [|n IH]; intros s Hs; [exact Hs|].
  destruct s as [|c r]; [reflexivity|]. cbn [drop_chars]. apply IH.
  cbn [has_slash] in Hs. apply orb_false_iff in Hs as [_ Hs]. exact Hs.
Qed.

Lemma replace_go_no_slash (fuel : nat) (old new s : string) :
  has_slash new = false -> has_slash s = false -> has_slash (replace_go fuel old new s) = false.
Proof.
  intros Hn. revert s. induction fuel as [|f IH]; intros s Hs; [exact Hs|].
  cbn [replace_go]. destruct (String.prefix old s).
  - rewrite has_slash_app, Hn. apply IH, drop_chars_no_slash, Hs.
  - destruct s as [|c r]; [reflexivity|]. cbn [has_slash] in Hs |- *.
    apply orb_false_iff in Hs as [Hc Hr]. rewrite Hc. apply IH, Hr.
Qed.

Lemma join_rel (d x : string) :
  startswith x "/" = false ->
  join d x = (if String.eqb d "" || endswith d "/" then d else d +:+ "/") +:+ x.
Proof.
  intros Hx. unfold join. rewrite Hx.
  destruct (String.eqb d "" || endswith d "/"); [reflexivity|]. symmetry. apply str_app_assoc.
Qed.

(** The final PDF of an archive is never below its extraction
    directory: both sit in the archive's directory, and the final name
    has no ['/']. *)
Lemma final_not_under_temp (p uuid : string) :
  startswith (OutPath.final_pdf_path p) (OutPath.temp_extract_dir p uuid +:+ "/") = false.
Proof.
  unfold OutPath.final_pdf_path, OutPath.temp_extract_dir.
  set (b := replace (basename p) ".rmdoc" "").
  assert (Hb : has_slash (b +:+ ".pdf") = false).
  { rewrite has_slash_app. unfold b, replace.
    rewrite replace_go_no_slash; [reflexivity|reflexivity|apply basename_no_slash]. }
  rewrite (join_rel _ _ (no_slash_not_abs _ Hb)), (join_rel _ ("temp_extract_" +:+ uuid));
    [|reflexivity].
  unfold startswith.
  rewrite str_app_assoc, prefix_app_same.
  destruct (String.prefix _ (b +:+ ".pdf")) eqn:H; [|reflexivity].
  apply prefix_slash in H; [congruence|].
  rewrite has_slash_app, has_slash_app. cbn [has_slash]. rewrite !orb_true_r. reflexivity.
Qed.

End PathFacts.

(* ------------------------------------------------------------------ *)
(** ** More of the code: archive processing *)

Module PipelineMore.
Import Py Pipeline Samples PipelineFacts PathFacts.

Section Facts.
Variable rmc : entry -> proc_result.

(** The world [process_body] starts from. *)
Lemma final_kept (p uuid : string) (archive : option (list entry)) (w : world) :
  w_files (snd (process_rmdoc_file rmc p uuid archive w)) !! OutPath.final_pdf_path p
  = w_files (snd (process_body rmc (OutPath.temp_extract_dir p uuid) (OutPath.final_pdf_path p)
                   archive (snd (log (EStart p) w)))) !! OutPath.final_pdf_path p.
Proof.
  pose proof (process_unfold rmc p uuid archive w) as H. cbv zeta in H.
  destruct (process_body rmc _ _ archive _) as [r w2]. rewrite H.
  assert (Hf : w_files (snd (rmtree (OutPath.temp_extract_dir p uuid) w2)) !! OutPath.final_pdf_path p
               = w_files w2 !! OutPath.final_pdf_path p).
  { cbn [rmtree snd w_files].
    destruct (w_files w2 !! OutPath.final_pdf_path p) as [x|] eqn:Hx.
    - apply map_lookup_filter_Some. split; [exact Hx|]. apply final_not_under_temp.
    - apply map_lookup_filter_None. left. exact Hx. }
  destruct r; exact Hf.
Qed.

Lemma body_native (d final : string) (zip : list entry) (content_file : entry) (j : json) (w : world) :
  find_content zip = Some content_file ->
  e_data content_file = DJson j ->
  path_exists zip [stem (e_name content_file) +:+ ".pdf"] = false ->
  process_body rmc d final (Some zip) w =
  try_except_key (native rmc d final j) (fallback d final)
    (mk_world (<[d := zip]> (w_trees w)) (w_files w) (w_log w)).
Proof.
  intros Hc Hj Hp. unfold process_body, mbind, set_tree, get_tree, lift.
  cbn [w_trees w_files w_log]. rewrite lookup_insert_eq, Hc, Hj. cbn [json_load].
  rewrite Hp. reflexivity.
Qed.

(** [process_rmdoc_file] ends as its body does, [return] counting as a
    normal end. *)
Lemma process_result (p uuid : string) (archive : option (list entry)) (w : world) :
  fst (process_rmdoc_file rmc p uuid archive w) =
  match fst (process_body rmc (OutPath.temp_extract_dir p uuid) (OutPath.final_pdf_path p)
               archive (snd (log (EStart p) w))) with
  | Raise e => Raise e
  | _ => Val tt
  end.
Proof.
  pose proof (process_unfold rmc p uuid archive w) as H. cbv zeta in H.
  destruct (process_body rmc _ _ archive _) as [r w2]. rewrite H. destruct r; reflexivity.
Qed.

Lemma process_log (p uuid : string) (archive : option (list entry)) (w : world) :
  exists tail,
  w_log (snd (process_rmdoc_file rmc p uuid archive w)) =
  (w_log (snd (process_body rmc (OutPath.temp_extract_dir p uuid) (OutPath.final_pdf_path p)
                archive (snd (log (EStart p) w)))) ++ ECleanup (OutPath.temp_extract_dir p uuid) :: tail)%list
  /\ (tail = [EFinal (OutPath.final_pdf_path p)] \/ tail = []).
Proof.
  pose proof (process_unfold rmc p uuid archive w) as H. cbv zeta in H.
  destruct (process_body rmc _ _ archive _) as [r w2]. rewrite H.
  destruct r; cbn [snd log rmtree w_log].
  - exists [EFinal (OutPath.final_pdf_path p)]. rewrite <- app_assoc. auto.
  - exists []. auto.
  - exists []. auto.
Qed.

(** With [rmc] missing, the first page found raises [FileNotFoundError]
    before anything is written for it. *)
Lemma convert_pages_notfound (d : string) (t : list entry) (ids acc : list string) (w : world) :
  (forall e, rmc e = NotFound) ->
  w_trees w !! d = Some t ->
  found_ids t ids <> [] ->
  fst (convert_pages rmc d (map JStr ids) acc w) = Raise FileNotFoundError
  /\ w_files (snd (convert_pages rmc d (map JStr ids) acc w)) = w_files w
  /\ merge_calls (w_log (snd (convert_pages rmc d (map JStr ids) acc w))) = merge_calls (w_log w).
Proof.
  intros Hnf Ht. revert acc w Ht. induction ids as [|id rest IH]; intros acc w Ht Hf;
    [contradiction|].
  unfold found_ids in Hf. cbn [List.filter] in Hf.
  cbn [map convert_pages]. unfold mbind, get_tree, lift, log, raise.
  cbn [fst snd w_log w_trees w_files]. rewrite Ht.
  destruct (page_src t id) as [e|] eqn:Hs.
  - apply page_src_find in Hs. rewrite Hs, Hnf. auto.
  - rewrite (page_src_none _ _ Hs). cbn [fst snd w_log w_trees w_files].
    fold (found_ids t rest) in Hf.
    destruct (IH acc (mk_world (w_trees w) (w_files w) (w_log w ++ [EMissing (JStr id)])%list) Ht Hf)
      as (H1 & H2 & H3).
    cbn [w_files w_log] in H2, H3. rewrite merge_calls_app in H3. cbn [merge_calls] in H3.
    rewrite app_nil_r in H3. auto.
Qed.

Lemma read_pdfs_log (w : world) (x : list event) (l : list string) :
  read_pdfs (mk_world (w_trees w) (w_files w) x) l = read_pdfs w l.
Proof. induction l as [|p l IH]; [reflexivity|]. cbn [read_pdfs]. rewrite IH. reflexivity. Qed.

Lemma read_pdfs_all (w : world) (l : list string) :
  (forall p, In p l -> exists pg, read_path w p = Some (DPdf pg)) ->
  read_pdfs w l =
  Some (flat_map (fun p => match read_path w p with Some (DPdf pg) => pg | _ => [] end) l).
Proof.
  induction l as [|p l IH]; intros H; [reflexivity|].
  destruct (H p (or_introl eq_refl)) as [pg Hp].
  cbn [read_pdfs flat_map]. rewrite Hp, IH; [reflexivity|].
  intros q Hq. apply H. right. exact Hq.
Qed.

Lemma read_pdfs_missing (w : world) (l : list string) (p : string) :
  In p l -> (forall pg, read_path w p <> Some (DPdf pg)) -> read_pdfs w l = None.
Proof.
  induction l as [|q l IH]; intros Hin Hp; [destruct Hin|].
  cbn [read_pdfs]. destruct Hin as [->|Hin].
  - destruct (read_path w p) as [[]|]; try reflexivity. exfalso. eapply Hp. reflexivity.
  - rewrite (IH Hin Hp). destruct (read_path w q) as [[]|]; reflexivity.
Qed.

Lemma las_rev_str (s : string) :
  list_ascii_of_string (rev_str s) = rev (list_ascii_of_string s).
Proof. induction s as [|c s IH]; [reflexivity|]. cbn [rev_str]. rewrite las_app, IH. reflexivity. Qed.

Lemma las_inj (x y : string) : list_ascii_of_string x = list_ascii_of_string y -> x = y.
Proof.
  intros H. rewrite <- (string_of_list_ascii_of_string x), <- (string_of_list_ascii_of_string y), H.
  reflexivity.
Qed.

Lemma rev_str_app (x y : string) : rev_str (x +:+ y) = rev_str y +:+ rev_str x.
Proof. apply las_inj. rewrite las_app, !las_rev_str, las_app, rev_app_distr. reflexivity. Qed.

Lemma rev_str_involutive (s : string) : rev_str (rev_str s) = s.
Proof. apply las_inj. rewrite !las_rev_str, rev_involutive. reflexivity. Qed.

Lemma length_app (x y : string) : String.length (x +:+ y) = String.length x + String.length y.
Proof. induction x as [|c x IH]; [reflexivity|]. simpl. rewrite IH. reflexivity. Qed.

Lemma length_rev_str (s : string) : String.length (rev_str s) = String.length s.
Proof.
  induction s as [|c s IH]; [reflexivity|]. cbn [rev_str].
  rewrite length_app, IH. simpl. lia.
Qed.

Lemma dot_index_app_none (a b : string) :
  dot_index a = None -> dot_index (a +:+ b) = option_map (Nat.add (String.length a)) (dot_index b).
Proof.
  induction a as [|c a IH]; intros H.
  - change (dot_index b = option_map (Nat.add 0) (dot_index b)). destruct (dot_index b); reflexivity.
  - rewrite append_cons. cbn [dot_index] in H |- *. destruct (Ascii.eqb c "."%char); [discriminate|].
    destruct (dot_index a); [discriminate|]. rewrite (IH eq_refl).
    destruct (dot_index b); reflexivity.
Qed.

Lemma dot_index_none (s : string) :
  (forall c, In c (list_ascii_of_string s) -> c <> "."%char) -> dot_index s = None.
Proof.
  induction s as [|c s IH]; intros H; [reflexivity|]. cbn [dot_index].
  destruct (Ascii.eqb c "."%char) eqn:Hc.
  - apply Ascii.eqb_eq in Hc. exfalso. apply (H c); [left; reflexivity|exact Hc].
  - rewrite IH; [reflexivity|]. intros c' Hin. apply H. right. exact Hin.
Qed.

Lemma drop_chars_app (a b : string) : drop_chars (String.length a) (a +:+ b) = b.
Proof. induction a as [|c a IH]; [destruct b; reflexivity|]. exact IH. Qed.

Lemma drop_chars_app_add (a b : string) (k : nat) :
  drop_chars (String.length a + k) (a +:+ b) = drop_chars k b.
Proof. induction a as [|c a IH]; [reflexivity|]. exact IH. Qed.

Lemma process_val_log (p uuid : string) (archive : option (list entry)) (w : world) (x : unit) :
  fst (process_body rmc (OutPath.temp_extract_dir p uuid) (OutPath.final_pdf_path p)
         archive (snd (log (EStart p) w))) = Val x ->
  w_log (snd (process_rmdoc_file rmc p uuid archive w)) =
  (w_log (snd (process_body rmc (OutPath.temp_extract_dir p uuid) (OutPath.final_pdf_path p)
                archive (snd (log (EStart p) w))))
   ++ [ECleanup (OutPath.temp_extract_dir p uuid); EFinal (OutPath.final_pdf_path p)])%list.
Proof.
  pose proof (process_unfold rmc p uuid archive w) as H. cbv zeta in H.
  destruct (process_body rmc _ _ archive _) as [r w2]. rewrite H. cbn [fst]. intros ->.
  cbn [snd log rmtree w_log]. rewrite <- app_assoc. reflexivity.
Qed.

(** The body when the manifest has no usable page list ([KeyError]):
    the fallback copy of the first file that is not a manifest,
    metadata, page data or PDF file. *)
Lemma body_fallback (d final : string) (zip : list entry) (content_file : entry) (j : json) (w : world) :
  find_content zip = Some content_file ->
  e_data content_file = DJson j ->
  path_exists zip [stem (e_name content_file) +:+ ".pdf"] = false ->
  page_ids_of j = Raise KeyError ->
  process_body rmc d final (Some zip) w =
  match List.find is_passthrough zip with
  | Some e => (Val tt, mk_world (<[d := zip]> (w_trees w)) (<[final := e_data e]> (w_files w))
                         (w_log w ++ [ENoCPages; EFallbackCopy (join d (relpath e))])%list)
  | None => (Val tt, mk_world (<[d := zip]> (w_trees w)) (w_files w)
                       (w_log w ++ [ENoCPages; ENoOriginal])%list)
  end.
Proof.
  intros Hc Hj Hpe Hp. rewrite (body_native d final zip content_file j w Hc Hj Hpe).
  unfold try_except_key, native, mbind, lift. rewrite Hp.
  unfold fallback, mbind, log, get_tree. cbn [w_trees w_files w_log].
  rewrite lookup_insert_eq.
  destruct (List.find is_passthrough zip) as [e|]; unfold write_file, log;
    cbn [fst snd w_trees w_files w_log]; rewrite <- app_assoc; reflexivity.
Qed.

Lemma body_notfound (d final : string) (zip : list entry) (content_file : entry) (j : json)
    (ids : list string) (w : world) :
  find_content zip = Some content_file ->
  e_data content_file = DJson j ->
  path_exists zip [stem (e_name content_file) +:+ ".pdf"] = false ->
  page_ids_of j = Val (map JStr ids) ->
  found_ids zip ids <> [] ->
  (forall e, rmc e = NotFound) ->
  fst (process_body rmc d final (Some zip) w) = Raise FileNotFoundError
  /\ w_files (snd (process_body rmc d final (Some zip) w)) = w_files w
  /\ merge_calls (w_log (snd (process_body rmc d final (Some zip) w))) = merge_calls (w_log w).
Proof.
  intros Hc Hj Hpe Hp Hf Hnf. rewrite (body_native d final zip content_file j w Hc Hj Hpe).
  unfold try_except_key, native, mbind, lift. rewrite Hp.
  set (w1 := mk_world (<[d := zip]> (w_trees w)) (w_files w) (w_log w)).
  assert (Ht : w_trees w1 !! d = Some zip) by apply lookup_insert_eq.
  destruct (convert_pages_notfound d zip ids [] w1 Hnf Ht Hf) as (H1 & H2 & H3).
  destruct (convert_pages rmc d (map JStr ids) [] w1) as [r w2]. cbn [fst snd] in H1, H2, H3 |- *.
  subst r. auto.
Qed.

End Facts.

(** The cleanup of [process_rmdoc_file] never removes the final PDF:
    what the body left at the final path is there when the function
    returns, whatever the archive and however the body ended. *)
Theorem final_pdf_survives_cleanup (rmc : entry -> proc_result)
    (p uuid : string) (archive : option (list entry)) (w : world) :
  w_files (snd (process_rmdoc_file rmc p uuid archive w)) !! OutPath.final_pdf_path p
  = w_files (snd (process_body rmc (OutPath.temp_extract_dir p uuid) (OutPath.final_pdf_path p)
                   archive (snd (log (EStart p) w)))) !! OutPath.final_pdf_path p.
Proof. apply final_kept. Qed.

(** A listed file whose archive is not a readable zip makes
    [zipfile.ZipFile] raise; nothing catches it, so the main loop stops
    there and no later file is processed. *)
Theorem unreadable_archive_stops_run (rmc : entry -> proc_result)
    (archive_of : string -> option (list entry)) (uuid_of : string -> string)
    (output f : string) (rest : list string) (w : world) :
  archive_of f = None ->
  fst (main_loop rmc archive_of uuid_of output (f :: rest) w) = Raise BadZipFile
  /\ main_loop rmc archive_of uuid_of output (f :: rest) w
     = process_rmdoc_file rmc (rmdoc_path output f) (uuid_of f) (archive_of f) w.
Proof.
  intros Ha.
  assert (Hr : fst (process_rmdoc_file rmc (rmdoc_path output f) (uuid_of f) (archive_of f) w)
               = Raise BadZipFile).
  { rewrite process_result, Ha. reflexivity. }
  cbn [main_loop]. unfold mbind.
  destruct (process_rmdoc_file rmc _ _ (archive_of f) w) as [r w'].
  cbn [fst] in Hr. subst r. auto.
Qed.

Lemma unreadable_archive_stops_run_witness :
  let archive_of := fun f : string => if String.eqb f "/b" then None else Some [manifest ["a"]; rm "a"] in
  fst (main_loop all_ok archive_of (fun _ => "u") "/o" ["/b"; "/c"] w0) = Raise BadZipFile
  /\ main_loop all_ok archive_of (fun _ => "u") "/o" ["/b"; "/c"] w0
     = process_rmdoc_file all_ok (rmdoc_path "/o" "/b") "u" (archive_of "/b") w0.
Proof.
  intros archive_of.
  apply (unreadable_archive_stops_run all_ok archive_of (fun _ => "u") "/o" "/b" ["/c"] w0).
  reflexivity.
Defined.

(** [merge_pdfs] when one input is missing or is not a PDF: the error
    is caught, it returns [False] and writes nothing. *)
Theorem merge_pdfs_unreadable_input (pdf_list : list string) (output_path p : string) (w : world) :
  In p pdf_list -> (forall pg, read_path w p <> Some (DPdf pg)) ->
  fst (merge_pdfs pdf_list output_path w) = Val false
  /\ w_files (snd (merge_pdfs pdf_list output_path w)) = w_files w
  /\ w_log (snd (merge_pdfs pdf_list output_path w)) = (w_log w ++ [EMerge pdf_list; EMergeError])%list.
Proof.
  intros Hin Hp. unfold merge_pdfs, mbind, log. cbn [fst snd w_trees w_files w_log].
  rewrite read_pdfs_log, (read_pdfs_missing w pdf_list p Hin Hp).
  unfold mret. cbn [fst snd w_files w_log]. rewrite <- app_assoc. auto.
Qed.

Lemma merge_pdfs_unreadable_input_witness :
  let w := mk_world ∅ {[ "x" := DPdf ["1"] ]} [] in
  fst (merge_pdfs ["x"; "z"] "out" w) = Val false
  /\ w_files (snd (merge_pdfs ["x"; "z"] "out" w)) = w_files w
  /\ w_log (snd (merge_pdfs ["x"; "z"] "out" w)) = (w_log w ++ [EMerge ["x"; "z"]; EMergeError])%list.
Proof.
  intros w. apply (merge_pdfs_unreadable_input ["x"; "z"] "out" "z" w).
  - right. left. reflexivity.
  - intros pg. vm_compute. discriminate.
Defined.

(** [Path(name).stem], which gives the base identifier of the manifest:
    for [<u>.<ext>] with [ext] non-empty and free of ['.'], it is [u]
    when [u] is non-empty; a name [.<ext>] is a hidden file without
    suffix and is its own stem. *)
Theorem stem_drops_suffix (u ext : string) :
  ext <> "" -> (forall c, In c (list_ascii_of_string ext) -> c <> "."%char) ->
  (u <> "" -> stem (u +:+ "." +:+ ext) = u) /\ stem ("." +:+ ext) = "." +:+ ext.
Proof.
  intros Hne Hnd.
  assert (Hr : dot_index (rev_str ext) = None).
  { apply dot_index_none. intros c Hc. apply Hnd. rewrite las_rev_str in Hc.
    apply in_rev in Hc. exact Hc. }
  assert (Hlen : 0 < String.length ext) by (destruct ext; [contradiction|simpl; lia]).
  assert (Hdot : forall v, dot_index (rev_str ext +:+ String "." v) = Some (String.length ext)).
  { intros v. rewrite dot_index_app_none by exact Hr. rewrite length_rev_str.
    cbn [dot_index Ascii.eqb Bool.eqb option_map]. f_equal. lia. }
  split.
  - intros Hu. unfold stem.
    replace (rev_str (u +:+ "." +:+ ext)) with (rev_str ext +:+ String "." (rev_str u))
      by (rewrite !rev_str_app, str_app_assoc; reflexivity).
    rewrite Hdot.
    replace (Nat.ltb 0 (String.length ext)) with true by (symmetry; apply Nat.ltb_lt; exact Hlen).
    replace (Nat.ltb (S (String.length ext)) (String.length (u +:+ "." +:+ ext))) with true
      by (symmetry; apply Nat.ltb_lt; rewrite !length_app;
          destruct u; [contradiction|simpl; lia]).
    cbn [andb].
    replace (S (String.length ext)) with (String.length (rev_str ext) + 1)
      by (rewrite length_rev_str; lia).
    rewrite drop_chars_app_add. apply rev_str_involutive.
  - unfold stem.
    replace (rev_str ("." +:+ ext)) with (rev_str ext +:+ String "." "")
      by (rewrite rev_str_app; reflexivity).
    rewrite Hdot.
    replace (Nat.ltb (S (String.length ext)) (String.length ("." +:+ ext))) with false
      by (symmetry; apply Nat.ltb_ge; rewrite length_app; simpl; lia).
    rewrite andb_false_r. reflexivity.
Qed.

Lemma stem_drops_suffix_witness :
  stem ("3f2a" +:+ "." +:+ "content") = "3f2a" /\ stem ("." +:+ "content") = "." +:+ "content".
Proof.
  destruct (stem_drops_suffix "3f2a" "content") as [H1 H2].
  - discriminate.
  - intros c Hc. vm_compute in Hc.
    repeat destruct Hc as [<-|Hc]; try discriminate. destruct Hc.
  - split; [apply H1; discriminate|exact H2].
Defined.

(** A manifest without a usable page list ([content_data['cPages']
    ['pages']] or a page's ['id'] missing), no embedded PDF, and no
    extracted file the [KeyError] handler may copy (every name ends in
    [.content], [.metadata], [.pagedata] or [.pdf]): nothing is written at
    the final path and an error is printed, yet the function ends
    normally and still prints that the final PDF was created. *)
Theorem fallback_without_original (rmc : entry -> proc_result)
    (p uuid : string) (zip : list entry) (content_file : entry) (j : json) (w : world) :
  find_content zip = Some content_file ->
  e_data content_file = DJson j ->
  path_exists zip [stem (e_name content_file) +:+ ".pdf"] = false ->
  page_ids_of j = Raise KeyError ->
  List.find is_passthrough zip = None ->
  let r := process_rmdoc_file rmc p uuid (Some zip) w in
  fst r = Val tt
  /\ w_files (snd r) !! OutPath.final_pdf_path p = w_files w !! OutPath.final_pdf_path p
  /\ In ENoOriginal (w_log (snd r))
  /\ In (EFinal (OutPath.final_pdf_path p)) (w_log (snd r)).
Proof.
  intros Hc Hj Hpe Hp He r. subst r.
  pose proof (body_fallback rmc (OutPath.temp_extract_dir p uuid) (OutPath.final_pdf_path p)
                zip content_file j (snd (log (EStart p) w)) Hc Hj Hpe Hp) as HB.
  rewrite He in HB.
  split; [|split; [|split]].
  - rewrite process_result, HB. reflexivity.
  - rewrite final_kept, HB. reflexivity.
  - rewrite (process_val_log rmc p uuid (Some zip) w tt) by (rewrite HB; reflexivity).
    rewrite HB. cbn [w_log]. apply in_or_app. left. apply in_or_app. right. right. left. reflexivity.
  - rewrite (process_val_log rmc p uuid (Some zip) w tt) by (rewrite HB; reflexivity).
    apply in_or_app. right. right. left. reflexivity.
Qed.

Lemma fallback_without_original_witness :
  let zip := [mk_entry [] "doc.content" (DJson (JObj [])); mk_entry [] "doc.metadata" (DBlob "m")] in
  let r := process_rmdoc_file all_ok "/o/n.rmdoc" "u" (Some zip) w0 in
  fst r = Val tt
  /\ w_files (snd r) !! OutPath.final_pdf_path "/o/n.rmdoc" = w_files w0 !! OutPath.final_pdf_path "/o/n.rmdoc"
  /\ In ENoOriginal (w_log (snd r))
  /\ In (EFinal (OutPath.final_pdf_path "/o/n.rmdoc")) (w_log (snd r)).
Proof.
  intros zip. apply (fallback_without_original all_ok "/o/n.rmdoc" "u" zip
                       (mk_entry [] "doc.content" (DJson (JObj []))) (JObj []) w0);
    reflexivity.
Defined.

(** A manifest that parses as JSON but is not an object (a list, a
    string, a number, [null] or a boolean), without an embedded PDF:
    [content_data['cPages']] raises [TypeError], which the [KeyError]
    handler does not catch, so it escapes [process_rmdoc_file]. *)
Theorem non_object_manifest_raises (rmc : entry -> proc_result)
    (p uuid : string) (zip : list entry) (content_file : entry) (j : json) (w : world) :
  find_content zip = Some content_file ->
  e_data content_file = DJson j ->
  (forall kv, j <> JObj kv) ->
  path_exists zip [stem (e_name content_file) +:+ ".pdf"] = false ->
  fst (process_rmdoc_file rmc p uuid (Some zip) w) = Raise TypeError.
Proof.
  intros Hc Hj Hobj Hpe. rewrite process_result.
  rewrite (body_native rmc _ _ zip content_file j _ Hc Hj Hpe).
  assert (Hp : page_ids_of j = Raise TypeError).
  { destruct j; try reflexivity. exfalso. eapply Hobj. reflexivity. }
  unfold try_except_key, native, mbind, lift. rewrite Hp. reflexivity.
Qed.

Lemma non_object_manifest_raises_witness :
  fst (process_rmdoc_file all_ok "/o/n.rmdoc" "u"
         (Some [mk_entry [] "doc.content" (DJson (JArr [])); rm "a"]) w0) = Raise TypeError.
Proof.
  apply (non_object_manifest_raises all_ok "/o/n.rmdoc" "u"
           [mk_entry [] "doc.content" (DJson (JArr [])); rm "a"]
           (mk_entry [] "doc.content" (DJson (JArr []))) (JArr []) w0);
    [reflexivity|reflexivity|intros kv; discriminate|reflexivity].
Defined.

(** Without an [rmc] executable ([FileNotFoundError], not the
    [CalledProcessError] the page loop catches), the first page found
    raises, the exception escapes [process_rmdoc_file], nothing is
    merged and nothing is written at the final path. *)
Theorem missing_rmc_raises (rmc : entry -> proc_result)
    (p uuid : string) (zip : list entry) (content_file : entry) (j : json)
    (ids : list string) (w : world) :
  find_content zip = Some content_file ->
  e_data content_file = DJson j ->
  path_exists zip [stem (e_name content_file) +:+ ".pdf"] = false ->
  page_ids_of j = Val (map JStr ids) ->
  found_ids zip ids <> [] ->
  (forall e, rmc e = NotFound) ->
  let r := process_rmdoc_file rmc p uuid (Some zip) w in
  fst r = Raise FileNotFoundError
  /\ merge_calls (w_log (snd r)) = merge_calls (w_log w)
  /\ w_files (snd r) !! OutPath.final_pdf_path p = w_files w !! OutPath.final_pdf_path p.
Proof.
  intros Hc Hj Hpe Hp Hf Hnf r. subst r.
  destruct (body_notfound rmc (OutPath.temp_extract_dir p uuid) (OutPath.final_pdf_path p)
              zip content_file j ids (snd (log (EStart p) w)) Hc Hj Hpe Hp Hf Hnf) as (H1 & H2 & H3).
  split; [|split].
  - rewrite process_result, H1. reflexivity.
  - destruct (process_log rmc p uuid (Some zip) w) as (tail & Hl & Ht).
    rewrite Hl, merge_calls_app, H3. cbn [snd log w_log]. rewrite merge_calls_app.
    destruct Ht as [-> | ->]; cbn [merge_calls]; rewrite !app_nil_r; reflexivity.
  - rewrite final_kept, H2. reflexivity.
Qed.

Lemma missing_rmc_raises_witness :
  let r := process_rmdoc_file (fun _ => NotFound) "/o/n.rmdoc" "u"
             (Some [manifest ["a"; "b"]; rm "a"; rm "b"]) w0 in
  fst r = Raise FileNotFoundError
  /\ merge_calls (w_log (snd r)) = merge_calls (w_log w0)
  /\ w_files (snd r) !! OutPath.final_pdf_path "/o/n.rmdoc" = w_files w0 !! OutPath.final_pdf_path "/o/n.rmdoc".
Proof.
  apply (missing_rmc_raises (fun _ => NotFound) "/o/n.rmdoc" "u"
           [manifest ["a"; "b"]; rm "a"; rm "b"] (manifest ["a"; "b"]) (manifest_json ["a"; "b"])
           ["a"; "b"] w0); try reflexivity.
  - vm_compute. discriminate.
Defined.

End PipelineMore.

(* ------------------------------------------------------------------ *)
(** ** More of the code: the listing parser *)

Module ListingMore.
Import Py Listing ListingText PipelineFacts PathFacts.

Lemma rstrip_app (x y : string) : rstrip y <> "" -> rstrip (x +:+ y) = x +:+ rstrip y.
Proof.
  intros Hy. induction x as [|c x IH]; [reflexivity|].
  rewrite append_cons. cbn [rstrip]. rewrite IH.
  destruct (String.eqb (x +:+ rstrip y) "") eqn:E.
  - apply String.eqb_eq in E. destruct x; [contradiction|discriminate].
  - rewrite andb_false_r. reflexivity.
Qed.

Lemma split_nl_single (a : string) : no_nl a -> split_nl a = [a].
Proof.
  unfold no_nl. induction a as [|c a IH]; intros H; [reflexivity|].
  cbn [split_nl]. destruct (Ascii.eqb c "010"%char) eqn:Hc.
  - apply Ascii.eqb_eq in Hc. subst c. exfalso. apply H. left. reflexivity.
  - rewrite IH; [reflexivity|]. intros Hin. apply H. right. exact Hin.
Qed.

Lemma split_nl_app (a b : string) :
  no_nl a -> split_nl (a +:+ String "010" b) = a :: split_nl b.
Proof.
  unfold no_nl. induction a as [|c a IH]; intros H; [reflexivity|].
  rewrite append_cons. cbn [split_nl]. destruct (Ascii.eqb c "010"%char) eqn:Hc.
  - apply Ascii.eqb_eq in Hc. subst c. exfalso. apply H. left. reflexivity.
  - rewrite IH; [reflexivity|]. intros Hin. apply H. right. exact Hin.
Qed.

Lemma item_line_no_nl (i : item) : no_nl (item_path i) -> no_nl (item_line i).
Proof.
  unfold no_nl. destruct i as [p|p]; cbn [item_path item_line]; intros H Hin;
    rewrite las_app in Hin; apply in_app_or in Hin as [Hin|Hin];
    [repeat destruct Hin as [Hin|Hin]; try discriminate; destruct Hin|exact (H Hin)
    |repeat destruct Hin as [Hin|Hin]; try discriminate; destruct Hin|exact (H Hin)].
Qed.

Lemma listing_text_cons (i j : item) (rest : list item) :
  listing_text (i :: j :: rest) = item_line i +:+ String "010" (listing_text (j :: rest)).
Proof. reflexivity. Qed.

Lemma split_listing (items : list item) :
  items <> [] -> (forall i, In i items -> no_nl (item_path i)) ->
  split_nl (listing_text items) = map item_line items.
Proof.
  induction items as [|i rest IH]; intros Hne H; [contradiction|].
  assert (Hi : no_nl (item_line i)) by (apply item_line_no_nl, H; left; reflexivity).
  destruct rest as [|j rest].
  - apply split_nl_single. exact Hi.
  - rewrite listing_text_cons, split_nl_app by exact Hi. rewrite IH; [reflexivity|discriminate|].
    intros k Hk. apply H. right. exact Hk.
Qed.

Lemma item_line_nonempty (i : item) (s : string) : item_line i = s -> s <> "".
Proof. destruct i; intros <-; discriminate. Qed.

Lemma rstrip_listing (items : list item) :
  items <> [] -> (forall i, In i items -> rstrip (item_line i) = item_line i) ->
  rstrip (listing_text items) = listing_text items.
Proof.
  induction items as [|i rest IH]; intros Hne H; [contradiction|].
  destruct rest as [|j rest].
  - apply H. left. reflexivity.
  - assert (IH' : rstrip (listing_text (j :: rest)) = listing_text (j :: rest)).
    { apply IH; [discriminate|]. intros k Hk. apply H. right. exact Hk. }
    assert (HL : String.eqb (listing_text (j :: rest)) "" = false).
    { apply String.eqb_neq. intros E.
      destruct rest; cbn [listing_text map String.concat] in E;
        [exact (item_line_nonempty j _ eq_refl E)|].
      destruct j; discriminate. }
    rewrite listing_text_cons, rstrip_app.
    + f_equal. cbn [rstrip]. rewrite IH', HL, andb_false_r. reflexivity.
    + cbn [rstrip]. rewrite IH', HL, andb_false_r. discriminate.
Qed.

Lemma lstrip_listing (items : list item) :
  items <> [] -> lstrip (listing_text items) = listing_text items.
Proof.
  destruct items as [|i [|j rest]]; intros Hne; [contradiction| |].
  - destruct i; reflexivity.
  - rewrite listing_text_cons. destruct i; reflexivity.
Qed.

Lemma parse_loop_items (items : list item) (ds fs : list string) :
  parse_loop (map item_line items) ds fs = (ds ++ dirs_of items, fs ++ files_of items)%list.
Proof.
  revert ds fs. induction items as [|i rest IH]; intros ds fs.
  - cbn. rewrite !app_nil_r. reflexivity.
  - destruct i as [p|p]; cbn [map parse_loop dirs_of files_of flat_map item_line].
    + replace (String.eqb ("[d] " +:+ p) "") with false by (destruct p; reflexivity).
      replace (startswith ("[d] " +:+ p) "[d] ") with true by (destruct p; reflexivity).
      replace (drop_chars 4 ("[d] " +:+ p)) with p by reflexivity.
      rewrite IH, <- app_assoc. reflexivity.
    + replace (String.eqb ("[f] " +:+ p) "") with false by (destruct p; reflexivity).
      replace (startswith ("[f] " +:+ p) "[d] ") with false by (destruct p; reflexivity).
      replace (startswith ("[f] " +:+ p) "[f] ") with true by (destruct p; reflexivity).
      replace (drop_chars 4 ("[f] " +:+ p)) with p by reflexivity.
      rewrite IH, <- app_assoc. reflexivity.
Qed.

Lemma lstrip_all_space (s : string) :
  (forall c, In c (list_ascii_of_string s) -> is_space c = true) -> lstrip s = "".
Proof.
  induction s as [|c s IH]; intros H; [reflexivity|]. cbn [lstrip].
  rewrite (H c (or_introl eq_refl)). apply IH. intros c' Hc. apply H. right. exact Hc.
Qed.

Lemma item_line_rstrip (i : item) :
  item_path i <> "" -> rstrip (item_path i) = item_path i -> rstrip (item_line i) = item_line i.
Proof.
  intros Hne Hr. destruct i as [p|p]; cbn [item_path item_line] in *;
    rewrite rstrip_app by (rewrite Hr; exact Hne); rewrite Hr; reflexivity.
Qed.

(** The lines printed by [rmapi find]: each item on a line of its own,
    [[d] ] before a directory and [[f] ] before a file, lines joined by
    newlines.  For paths of ASCII characters (where [is_space] is exactly
    what Python's [str.strip] removes), if no path holds a newline, none
    is empty and none ends in whitespace, [parse_rmapi_find] gives back
    exactly the directories and the files, each list in the order of the
    listing. *)
Theorem parse_listing_roundtrip (items : list item) :
  (forall i, In i items ->
     (forall c, In c (list_ascii_of_string (item_path i)) -> nat_of_ascii c < 128)
     /\ no_nl (item_path i) /\ item_path i <> "" /\ rstrip (item_path i) = item_path i) ->
  parse_rmapi_find (listing_text items) = (dirs_of items, files_of items).
Proof.
  intros H. destruct items as [|i0 rest0] eqn:Ei; [reflexivity|]. rewrite <- Ei in *.
  assert (Hne : items <> []) by (rewrite Ei; discriminate).
  unfold parse_rmapi_find, strip.
  rewrite lstrip_listing by exact Hne.
  rewrite rstrip_listing; [|exact Hne|].
  - rewrite split_listing; [|exact Hne|intros i Hi; apply H, Hi].
    rewrite parse_loop_items. reflexivity.
  - intros i Hi. destruct (H i Hi) as (_ & _ & Hp & Hr). apply item_line_rstrip; assumption.
Qed.

Lemma parse_listing_roundtrip_witness :
  parse_rmapi_find (listing_text [IDir "/a"; IFile "/a/b.pdf"]) = (["/a"], ["/a/b.pdf"]).
Proof.
  apply (parse_listing_roundtrip [IDir "/a"; IFile "/a/b.pdf"]).
  intros i Hi. destruct Hi as [<-|[<-|[]]]; cbn [item_path]; (split;
    [intros c Hc; simpl in Hc;
     repeat (destruct Hc as [<-|Hc]; [apply Nat.ltb_lt; reflexivity|]); destruct Hc|]);
    repeat split; try discriminate; try reflexivity; unfold no_nl; simpl; intuition discriminate.
Defined.

(** An output made only of ASCII whitespace characters (tab, newline,
    vertical tab, form feed, carriage return, the separators 28-31 and
    space, all of which Python's [str.strip] removes), the empty output
    included, gives no directory and no file. *)
Theorem parse_blank_output (text : string) :
  (forall c, In c (list_ascii_of_string text) -> is_space c = true) ->
  parse_rmapi_find text = ([], []).
Proof.
  intros H. unfold parse_rmapi_find, strip. rewrite lstrip_all_space by exact H. reflexivity.
Qed.

Lemma parse_blank_output_witness :
  parse_rmapi_find (String "010" (String " " (String "009" EmptyString))) = ([], []).
Proof.
  apply parse_blank_output. intros c Hc. simpl in Hc.
  destruct Hc as [<-|[<-|[<-|[]]]]; reflexivity.
Defined.

End ListingMore.

(* ------------------------------------------------------------------ *)
(** ** More on [ensure_directories_exist] *)

Module MirrorMore.
Import Py Mirror MirrorFacts.

Section Facts.
Variable denied : list string -> bool.

Lemma mkdir_new (p : list string) (fs fs' : fsys) (r : option oserror) :
  mkdir denied p fs = (fs', r) ->
  forall q x, fs' !! q = Some x -> fs !! q = Some x \/ (x = NDir /\ q = p).
Proof.
  unfold mkdir. intros H q x Hq.
  destruct p as [|c p'] eqn:Hp; [injection H as <- <-; auto|].
  rewrite <- Hp in H |- *.
  destruct (fs !! p) eqn:Hfs; [injection H as <- <-; auto|].
  destruct (negb (bool_decide (removelast p = [])) && negb (is_dir fs (removelast p)));
    [injection H as <- <-; auto|].
  destruct (denied p); [injection H as <- <-; auto|].
  injection H as <- <-. destruct (decide (p = q)) as [<-|Hne].
  - rewrite lookup_insert_eq in Hq. injection Hq as <-. auto.
  - rewrite lookup_insert_ne in Hq by exact Hne. auto.
Qed.

Lemma mkdir_ok (p : list string) (fs fs' : fsys) :
  mkdir denied p fs = (fs', None) -> fs' !! p = Some NDir.
Proof.
  unfold mkdir. intros H.
  destruct p as [|c p'] eqn:Hp; [discriminate|]. rewrite <- Hp in H |- *.
  destruct (fs !! p); [discriminate|].
  destruct (negb (bool_decide (removelast p = [])) && negb (is_dir fs (removelast p)));
    [discriminate|].
  destruct (denied p); [discriminate|].
  injection H as <-. apply lookup_insert_eq.
Qed.

(** One step of [makedirs_rev]: the head is handled first (leaving the
    file system unchanged or running [makedirs_rev] on it), then the name. *)
Lemma makedirs_rev_step (c : string) (rhead : list string) (fs : fsys) :
  exists fs1 r1,
    makedirs_rev denied (c :: rhead) fs =
      match r1 with
      | Some e => (fs1, Some e)
      | None =>
          match mkdir denied (rev (c :: rhead)) fs1 with
          | (fs2, None) => (fs2, None)
          | (fs2, Some e) => if is_dir fs2 (rev (c :: rhead)) then (fs2, None) else (fs2, Some e)
          end
      end
    /\ (fs1 = fs \/ exists r0, makedirs_rev denied rhead fs = (fs1, r0)).
Proof.
  cbn [makedirs_rev].
  destruct (negb (bool_decide (rhead = [])) && bool_decide (fs !! rev rhead = None)).
  - destruct (makedirs_rev denied rhead fs) as [fsA rA] eqn:HA.
    destruct rA as [[|]|].
    + exists fsA, None. split; [reflexivity|right; eexists; first [exact HA|reflexivity]].
    + exists fsA, (Some EOther). split; [reflexivity|right; eexists; first [exact HA|reflexivity]].
    + exists fsA, None. split; [reflexivity|right; eexists; first [exact HA|reflexivity]].
  - exists fs, None. split; [reflexivity|left; reflexivity].
Qed.

Lemma makedirs_rev_new (rp : list string) (fs fs' : fsys) (r : option oserror) :
  makedirs_rev denied rp fs = (fs', r) ->
  forall q x, fs' !! q = Some x -> fs !! q = Some x \/ (x = NDir /\ q `prefix_of` rev rp).
Proof.
  revert fs fs' r. induction rp as [|c rhead IH]; intros fs fs' r H q x Hq.
  - injection H as <- <-. auto.
  - destruct (makedirs_rev_step c rhead fs) as (fs1 & r1 & E & Hh). rewrite E in H.
    assert (H1 : forall q x, fs1 !! q = Some x ->
                 fs !! q = Some x \/ (x = NDir /\ q `prefix_of` rev rhead)).
    { destruct Hh as [->|[r0 Hr0]]; [auto|exact (IH _ _ _ Hr0)]. }
    assert (Hpre : forall q, q `prefix_of` rev rhead -> q `prefix_of` rev (c :: rhead)).
    { intros q' Hq'. simpl. apply prefix_app_r. exact Hq'. }
    destruct r1 as [e|].
    + injection H as <- <-. destruct (H1 q x Hq) as [|[? ?]]; auto.
    + destruct (mkdir denied (rev (c :: rhead)) fs1) as [fs2 [e|]] eqn:HM;
        [destruct (is_dir fs2 (rev (c :: rhead)))|]; injection H as <- <-;
        (destruct (mkdir_new _ _ _ _ HM q x Hq) as [Hq1|[-> ->]];
         [destruct (H1 q x Hq1) as [|[? ?]]; auto|right; split; reflexivity]).
Qed.

Lemma makedirs_rev_ok (rp : list string) (fs fs' : fsys) :
  makedirs_rev denied rp fs = (fs', None) -> fs' !! rev rp = Some NDir.
Proof.
  intros H. destruct rp as [|c rhead]; [discriminate|].
  destruct (makedirs_rev_step c rhead fs) as (fs1 & r1 & E & _). rewrite E in H.
  destruct r1 as [e|]; [discriminate|].
  destruct (mkdir denied (rev (c :: rhead)) fs1) as [fs2 [e|]] eqn:HM.
  - destruct (is_dir fs2 (rev (c :: rhead))) eqn:Hd; [|discriminate].
    injection H as <-. unfold is_dir in Hd. apply bool_decide_eq_true in Hd. exact Hd.
  - injection H as <-. exact (mkdir_ok _ _ _ HM).
Qed.

Lemma makedirs_ok (path : string) (fs fs' : fsys) :
  makedirs denied path fs = (fs', None) -> fs' !! norm path = Some NDir.
Proof.
  unfold makedirs. intros H. apply makedirs_rev_ok in H. rewrite rev_involutive in H. exact H.
Qed.

Lemma makedirs_new (path : string) (fs fs' : fsys) (r : option oserror) :
  makedirs denied path fs = (fs', r) ->
  (forall q x, fs !! q = Some x -> fs' !! q = Some x) /\ (wf fs -> wf fs')
  /\ (forall q x, fs' !! q = Some x -> fs !! q = Some x \/ (x = NDir /\ q `prefix_of` norm path)).
Proof.
  unfold makedirs. intros H.
  pose proof (makedirs_rev_grows denied _ _ _ _ H) as [G1 [G2 _]].
  pose proof (makedirs_rev_new _ _ _ _ H) as N. rewrite rev_involutive in N. auto.
Qed.

Lemma mirror_loop_new (root : string) (ds : list string) (fs fs' : fsys) (evs : list event) :
  mirror_loop denied root ds fs = (fs', evs) ->
  (forall q x, fs !! q = Some x -> fs' !! q = Some x) /\ (wf fs -> wf fs')
  /\ (forall q x, fs' !! q = Some x -> fs !! q = Some x
        \/ (x = NDir /\ exists d, In d ds /\ q `prefix_of` norm (full_path root d))).
Proof.
  revert fs fs' evs. induction ds as [|d rest IH]; intros fs fs' evs H.
  - injection H as <- <-. auto.
  - cbn [mirror_loop] in H.
    destruct (makedirs denied (full_path root d) fs) as [fs1 r] eqn:HM.
    destruct (mirror_loop denied root rest fs1) as [fs2 evs2] eqn:HL.
    injection H as <- <-.
    destruct (makedirs_new _ _ _ _ HM) as (A1 & A2 & A3).
    destruct (IH _ _ _ HL) as (B1 & B2 & B3).
    split; [auto|split; [auto|]].
    intros q x Hq. destruct (B3 q x Hq) as [Hq1|[-> (d' & Hd' & Hp)]].
    + destruct (A3 q x Hq1) as [|[-> Hp]]; [auto|].
      right. split; [reflexivity|]. exists d. split; [left; reflexivity|exact Hp].
    + right. split; [reflexivity|]. exists d'. split; [right; exact Hd'|exact Hp].
Qed.

Lemma mirror_loop_dirok (root : string) (ds : list string) (fs fs' : fsys)
    (evs : list event) (p : string) :
  mirror_loop denied root ds fs = (fs', evs) -> In (DirOk p) evs -> fs' !! norm p = Some NDir.
Proof.
  revert fs fs' evs. induction ds as [|d rest IH]; intros fs fs' evs H Hin.
  - injection H as <- <-. destruct Hin.
  - cbn [mirror_loop] in H.
    destruct (makedirs denied (full_path root d) fs) as [fs1 r] eqn:HM.
    destruct (mirror_loop denied root rest fs1) as [fs2 evs2] eqn:HL.
    injection H as <- <-. destruct Hin as [Hev|Hin]; [|exact (IH _ _ _ HL Hin)].
    destruct r as [e|]; [discriminate|]. injection Hev as <-.
    apply (proj1 (mirror_loop_new _ _ _ _ _ HL)). exact (makedirs_ok _ _ _ HM).
Qed.

Lemma mirror_loop_all_existing (root : string) (ds : list string) (fs : fsys) :
  wf fs -> Forall (fun d => fs !! norm (full_path root d) = Some NDir) ds ->
  mirror_loop denied root ds fs = (fs, map (fun d => DirOk (full_path root d)) ds).
Proof.
  intros Hwf Hall. induction Hall as [|d rest Hd _ IH]; [reflexivity|].
  cbn [mirror_loop map]. rewrite (makedirs_existing denied _ _ Hwf Hd), IH. reflexivity.
Qed.

End Facts.

Lemma all_dirok (evs : list event) :
  Forall (fun ev => exists p, ev = DirOk p) evs -> evs = map DirOk (map event_path evs).
Proof.
  induction 1 as [|ev rest [p ->] _ IH]; [reflexivity|]. simpl. f_equal. exact IH.
Qed.

(** [ensure_directories_exist] only ever adds directories: every node of
    the file system is kept, a well-formed file system stays well formed,
    and every new node is a directory on the way to the output root or to
    the joined path of one of the listed entries.  This is stated for
    paths with no [.] or [..] component, which [norm] keeps as they are
    while the OS resolves them. *)
Theorem ensure_only_adds_dirs (denied : list string -> bool) (root : string)
    (ds : list string) (fs fs' : fsys) (evs : list event) :
  Forall (fun c => c <> "." /\ c <> "..") (norm root) ->
  (forall d, In d ds -> Forall (fun c => c <> "." /\ c <> "..") (norm (full_path root d))) ->
  ensure_directories_exist denied root ds fs = (fs', evs) ->
  (forall q x, fs !! q = Some x -> fs' !! q = Some x)
  /\ (wf fs -> wf fs')
  /\ (forall q x, fs' !! q = Some x -> fs !! q = Some x
        \/ (x = NDir /\ (q `prefix_of` norm root
                         \/ exists d, In d ds /\ q `prefix_of` norm (full_path root d)))).
Proof.
  unfold ensure_directories_exist. intros _ _ H.
  destruct (makedirs denied root fs) as [fs1 [e|]] eqn:HM.
  - injection H as <- <-. destruct (makedirs_new _ _ _ _ _ HM) as (A1 & A2 & A3).
    split; [auto|split; [auto|]]. intros q x Hq.
    destruct (A3 q x Hq) as [|[-> Hp]]; auto.
  - destruct (makedirs_new _ _ _ _ _ HM) as (A1 & A2 & A3).
    destruct (mirror_loop_new _ _ _ _ _ _ H) as (B1 & B2 & B3).
    split; [auto|split; [auto|]]. intros q x Hq.
    destruct (B3 q x Hq) as [Hq1|[-> Hp]]; [|auto].
    destruct (A3 q x Hq1) as [|[-> Hp]]; auto.
Qed.

Lemma ensure_only_adds_dirs_witness :
  let r := ensure_directories_exist (fun _ => false) "/out" ["/a"; "b/c"] Samples.fs0 in
  (forall q x, Samples.fs0 !! q = Some x -> fst r !! q = Some x)
  /\ (wf Samples.fs0 -> wf (fst r))
  /\ (forall q x, fst r !! q = Some x -> Samples.fs0 !! q = Some x
        \/ (x = NDir /\ (q `prefix_of` norm "/out"
                         \/ exists d, In d ["/a"; "b/c"] /\ q `prefix_of` norm (full_path "/out" d)))).
Proof.
  intros r. apply (ensure_only_adds_dirs (fun _ => false) "/out" ["/a"; "b/c"] Samples.fs0
                    (fst r) (snd r)).
  - vm_compute. repeat constructor; discriminate.
  - intros d [<-|[<-|[]]]; vm_compute; repeat constructor; discriminate.
  - subst r. vm_compute. reflexivity.
Defined.

(** Every entry [ensure_directories_exist] reports as created or already
    existing is a directory of the file system it leaves. *)
Theorem ensure_dirok_exists (denied : list string -> bool) (root : string)
    (ds : list string) (fs fs' : fsys) (evs : list event) (p : string) :
  ensure_directories_exist denied root ds fs = (fs', evs) ->
  In (DirOk p) evs -> fs' !! norm p = Some NDir.
Proof.
  unfold ensure_directories_exist. intros H Hin.
  destruct (makedirs denied root fs) as [fs1 [e|]] eqn:HM.
  - injection H as <- <-. destruct Hin as [Hin|[]]. discriminate.
  - exact (mirror_loop_dirok _ _ _ _ _ _ _ H Hin).
Qed.

Lemma ensure_dirok_exists_witness :
  let r := ensure_directories_exist (fun _ => false) "/out" ["/a"; "b/c"] Samples.fs0 in
  fst r !! norm "/out/b/c" = Some NDir.
Proof.
  intros r. apply (ensure_dirok_exists (fun _ => false) "/out" ["/a"; "b/c"] Samples.fs0
                     (fst r) (snd r) "/out/b/c").
  - subst r. vm_compute. reflexivity.
  - subst r. vm_compute. right. left. reflexivity.
Defined.

(** Running [ensure_directories_exist] a second time on the file system a
    fully successful run left (every report a success) changes nothing and
    reports the same successes again. *)
Theorem ensure_idempotent (denied : list string -> bool) (root : string)
    (ds : list string) (fs fs1 : fsys) (evs : list event) :
  wf fs ->
  ensure_directories_exist denied root ds fs = (fs1, evs) ->
  Forall (fun ev => exists p, ev = DirOk p) evs ->
  ensure_directories_exist denied root ds fs1 = (fs1, evs).
Proof.
  intros Hwf H Hok. unfold ensure_directories_exist in H |- *.
  destruct (makedirs denied root fs) as [fsr [e|]] eqn:HM.
  - injection H as <- <-. inversion Hok as [|? ? [p Hp] _]. discriminate.
  - destruct (makedirs_new _ _ _ _ _ HM) as (_ & A2 & _).
    destruct (mirror_loop_new _ _ _ _ _ _ H) as (B1 & B2 & _).
    assert (Hwf1 : wf fs1) by auto.
    rewrite (makedirs_existing denied _ _ Hwf1 (B1 _ _ (makedirs_ok _ _ _ _ HM))).
    pose proof (proj1 (mirror_loop_paths denied root ds fsr)) as P. rewrite H in P.
    cbn [snd] in P. pose proof (all_dirok _ Hok) as Hevs. rewrite P in Hevs.
    rewrite mirror_loop_all_existing by
      (exact Hwf1 || (apply List.Forall_forall; intros d Hd;
        apply (mirror_loop_dirok denied root ds fsr fs1 evs); [exact H|];
        rewrite Hevs; apply in_map, in_map; exact Hd)).
    rewrite Hevs, map_map. reflexivity.
Qed.

Lemma ensure_idempotent_witness :
  let r := ensure_directories_exist (fun _ => false) "/out" ["/a"; "b/c"] Samples.fs0 in
  ensure_directories_exist (fun _ => false) "/out" ["/a"; "b/c"] (fst r) = r.
Proof.
  intros r. rewrite (surjective_pairing r) at 2.
  apply (ensure_idempotent (fun _ => false) "/out" ["/a"; "b/c"] Samples.fs0).
  - apply wf_check_sound. vm_compute. reflexivity.
  - subst r. vm_compute. reflexivity.
  - subst r. vm_compute. repeat constructor; eexists; reflexivity.
Defined.

End MirrorMore.
